(** * Zeno CLI: a shallow embedding of [file.js] and of the tool-handling,
    configuration and mode-toggle code of [zeno.js].

    Strings are Rocq strings of 8-bit characters, JavaScript values are a
    small tagged union, the object [toolCall.args] is a finite map from
    property names to values, and every interaction with the outside
    (terminal, file system, child processes, the remote model) is an event
    appended to a trace, its result supplied by an environment record. *)

From Stdlib Require Import Ascii String Bool List Lia.
From stdpp Require Import base option list gmap strings.

Set Default Proof Using "Type".
Local Open Scope string_scope.
Local Open Scope list_scope.
Local Open Scope stdpp_scope.

(** ** JavaScript values and string primitives *)

Module Js.

Inductive Value :=
| VUndefined
| VNull
| VBool (b : bool)
| VNumber (n : Z)
| VNaN
| VString (s : string)
| VObject.          (* any object or array; its contents are never inspected *)

(** [!!v] of JavaScript: the falsy values are [undefined], [null], [false],
    [0], [NaN] and the empty string. *)
Definition truthy (v : Value) : bool :=
  match v with
  | VUndefined | VNull | VNaN => false
  | VBool b => b
  | VNumber n => negb (Z.eqb n 0)
  | VString s => negb (String.eqb s "")
  | VObject => true
  end.

Definition is_string (v : Value) : bool :=   (* typeof v === 'string' *)
  match v with VString _ => true | _ => false end.

(** The string held by a value that passed the [typeof] test. *)
Definition str (v : Value) : string :=
  match v with VString s => s | _ => EmptyString end.

(** [a || b] *)
Definition or (a b : Value) : Value := if truthy a then a else b.

(** Line feed and double quote, for the message texts. *)
Definition nl : string := String (ascii_of_nat 10) EmptyString.
Definition dq : string := String (ascii_of_nat 34) EmptyString.

(** [s.startsWith(p)] *)
Fixpoint startsWith (s p : string) {struct p} : bool :=
  match p with
  | EmptyString => true
  | String a p' =>
      match s with
      | EmptyString => false
      | String b s' => Ascii.eqb a b && startsWith s' p'
      end
  end.

(** [s.includes(t)] *)
Fixpoint includes (s t : string) : bool :=
  startsWith s t ||
  match s with
  | EmptyString => false
  | String _ s' => includes s' t
  end.

(** White space removed by [trim]: tab, line feed, vertical tab, form feed,
    carriage return and space (the characters of [trim] below code 128). *)
Definition is_ws (c : ascii) : bool := Ascii.is_space c.

Fixpoint trimStart (s : string) : string :=
  match s with
  | EmptyString => EmptyString
  | String c s' => if is_ws c then trimStart s' else s
  end.

Fixpoint trimEnd (s : string) : string :=
  match s with
  | EmptyString => EmptyString
  | String c s' =>
      match trimEnd s' with
      | EmptyString => if is_ws c then EmptyString else String c EmptyString
      | t => String c t
      end
  end.

Definition trim (s : string) : string := trimEnd (trimStart s).

Definition lower_ascii (c : ascii) : ascii :=
  let n := nat_of_ascii c in
  if (65 <=? n)%nat && (n <=? 90)%nat then ascii_of_nat (n + 32) else c.

Fixpoint toLowerCase (s : string) : string :=
  match s with
  | EmptyString => EmptyString
  | String c s' => String (lower_ascii c) (toLowerCase s')
  end.

End Js.

(** ** Node's [path.resolve], POSIX flavour

    [path] is Node's own module.  The model follows its algorithm: the
    arguments are taken from right to left until an absolute one is met (the
    process's current directory stands behind the first argument), joined
    with [/], and the result is normalised segment by segment: empty and [.]
    segments vanish and [..] removes the segment before it. *)

Module Path.

Fixpoint split (s : string) : list string :=
  match s with
  | EmptyString => [EmptyString]
  | String c s' =>
      if Ascii.eqb c "/" then EmptyString :: split s'
      else match split s' with
           | seg :: rest => String c seg :: rest
           | [] => [String c EmptyString]
           end
  end.

Fixpoint join (segs : list string) : string :=
  match segs with
  | [] => EmptyString
  | [seg] => seg
  | seg :: rest => seg +:+ "/" +:+ join rest
  end.

(** One step of [normalizeString]; [acc] holds the kept segments, last one
    first. *)
Definition normalize_step (allowAboveRoot : bool) (acc : list string)
    (seg : string) : list string :=
  if String.eqb seg "" || String.eqb seg "." then acc
  else if String.eqb seg ".." then
    match acc with
    | last :: acc' =>
        if String.eqb last ".."
        then (if allowAboveRoot then ".." :: acc else acc)
        else acc'
    | [] => if allowAboveRoot then [".."] else []
    end
  else seg :: acc.

Definition normalize_segments (allowAboveRoot : bool) (p : string) : list string :=
  rev (fold_left (normalize_step allowAboveRoot) (split p) []).

Definition normalizeString (p : string) (allowAboveRoot : bool) : string :=
  join (normalize_segments allowAboveRoot p).

Definition isAbsolute (p : string) : bool :=
  match p with String c _ => Ascii.eqb c "/" | EmptyString => false end.

(** The right-to-left loop of [resolve]: [paths_rev] is the argument list
    reversed with the current directory at its end.  Every argument the loop
    visits must be a string ([validateString]); [None] is the [TypeError]
    thrown otherwise. *)
Fixpoint resolve_loop (paths_rev : list Js.Value) (resolvedPath : string)
    : option (string * bool) :=
  match paths_rev with
  | [] => Some (resolvedPath, false)
  | Js.VString p :: ps =>
      if String.eqb p "" then resolve_loop ps resolvedPath
      else
        let resolvedPath' := p +:+ "/" +:+ resolvedPath in
        if isAbsolute p then Some (resolvedPath', true)
        else resolve_loop ps resolvedPath'
  | _ :: _ => None
  end.

Definition resolve (cwd : string) (paths : list Js.Value) : option string :=
  match resolve_loop (rev paths ++ [Js.VString cwd]) "" with
  | None => None
  | Some (resolvedPath, resolvedAbsolute) =>
      let norm := normalizeString resolvedPath (negb resolvedAbsolute) in
      Some (if resolvedAbsolute then "/" +:+ norm
            else if String.eqb norm "" then "." else norm)
  end.

(** The directory components of a path: its non-empty segments. *)
Definition components (p : string) : list string :=
  filter (λ seg, seg ≠ "") (split p).

Fixpoint list_prefixb (l1 l2 : list string) : bool :=
  match l1, l2 with
  | [], _ => true
  | x :: l1', y :: l2' => String.eqb x y && list_prefixb l1' l2'
  | _ :: _, [] => false
  end.

(** [within dir p]: the absolute path [p] is the directory [dir] itself or
    lies below it. *)
Definition within (dir p : string) : bool :=
  list_prefixb (components dir) (components p).

End Path.

(** ** The runtime: events, environment and the effect monad *)

Module Rt.

Record ToolCall := mkToolCall {
  tc_name : string;
  tc_args : gmap string Js.Value;
}.

(** [toolCall.args.prop]; a missing property reads as [undefined]. *)
Definition arg (tc : ToolCall) (prop : string) : Js.Value :=
  default Js.VUndefined (tc_args tc !! prop).

Inductive Part :=
| PText (text : string)
| PFunctionCall (functionCall : ToolCall)
| PFunctionResponse (name : string) (content : string).

Record Turn := mkTurn { role : string; parts : list Part }.

(** The object written to the configuration file. *)
Record Config := mkConfig {
  cfg_apiKey : Js.Value;
  cfg_filesWorkingDirectory : option Js.Value;   (* [None]: no such property *)
}.

Inductive Event :=
| ConsoleLog (line : string)               (* console.log and console.error *)
| StdoutWrite (text : string)              (* process.stdout.write *)
| ClearLine                                (* clearLine(0); cursorTo(0) *)
| Question (prompt : string)               (* rl.question *)
| FsWriteFile (path : string) (data : Js.Value)
| FsRename (oldPath newPath : string)
| FsStat (path : string)
| FsMkdirConfig                            (* fs.mkdir(CONFIG_DIR, {recursive}) *)
| FsReadConfig                             (* fs.readFile(CONFIG_FILE) *)
| FsWriteConfig (cfg : Config)             (* fs.writeFile(CONFIG_FILE, ...) *)
| Exec (command : string) (cwd : Js.Value)
| HttpsGet (url : string)
| SendParts (message : list Part)          (* chat.sendMessageStream(parts) *)
| SendText (message : string)              (* chat.sendMessageStream(string) *)
| StartChat (tools : list string) (history : list Turn).

(** How a call of [exec] ends.  A command that never ends is outside the
    model. *)
Inductive ExecResult :=
| ExecThrows (message : string)            (* exec itself throws *)
| ExecDone (error : option string) (stdout stderr : string).
                                           (* callback(error, stdout, stderr);
                                              [error] holds [error.message] *)

Inductive StatResult :=
| StatFails (message : string)
| StatOk (isDirectory : bool).

(** What [JSON.parse] of the configuration file yields, as far as [loadConfig]
    looks at it. *)
Inductive ReadResult :=
| ReadThrows (message : string)            (* readFile or JSON.parse throws *)
| ReadNull                                 (* the file holds [null] *)
| ReadObject (apiKey filesWorkingDirectory : Js.Value).

Inductive MkdirResult :=
| MkdirOk
| MkdirFails (code message : string).

Inductive HttpResult :=
| HttpResponse (statusCode : Z) (body : string)
| HttpError (message : string).

Record Chunk := mkChunk {
  chunk_functionCalls : list ToolCall;
  chunk_text : string;
}.

(** A reply of the model: the call throws, or the stream delivers all its
    chunks and then the final response. *)
Inductive StreamResult :=
| StreamThrows (message : string)
| StreamOk (chunks : list Chunk)
    (finalCall : option ToolCall)          (* first part of the final response
                                              that carries a functionCall *)
    (finishReason : option string)
    (safetyRatings : option string).       (* their JSON text, when present *)

(** Everything the program does not compute itself.  An answer of the outside
    may depend on all that happened before, hence the trace argument.  [None]
    from a file-system call is success, [Some m] a rejection with
    [error.message = m]. *)
Record Env := mkEnv {
  cwd : string;                                        (* process.cwd() *)
  JSON_stringify : gmap string Js.Value → string;
  encodeURIComponent : Js.Value → string;
  show_int : Z → string;                               (* `${n}` *)
  fs_writeFile : list Event → string → Js.Value → option string;
  fs_rename : list Event → string → string → option string;
  fs_stat : list Event → string → StatResult;
  fs_mkdir : list Event → MkdirResult;
  fs_readConfig : list Event → ReadResult;
  fs_writeConfig : list Event → Config → option string;
  exec : list Event → string → Js.Value → ExecResult;
  https_get : list Event → string → HttpResult;
  sendMessageStream : list Event → StreamResult;
}.

(** The module-level variables of [zeno.js], the variable [firstChunk] of
    [main] (its [catch] block reads it), the trace of events so far (the
    oldest first) and the lines the user is still going to type. *)
Record World := mkWorld {
  apiKey : Js.Value;
  isFilesModeEnabled : bool;
  filesWorkingDirectory : Js.Value;
  tempFilesWorkingDirectory : Js.Value;
  chatHistory : list Turn;
  firstChunk : bool;
  trace : list Event;
  stdin : list string;
}.

Inductive Outcome (A : Type) :=
| Ret (a : A)
| Throw (message : string)     (* an exception with this [message] *)
| Await.                       (* waiting for a line that never comes *)
Arguments Ret {A} a.
Arguments Throw {A} message.
Arguments Await {A}.

Definition M (A : Type) : Type := World → Outcome A * World.

Definition ret {A} (a : A) : M A := λ w, (Ret a, w).
Definition throw {A} (message : string) : M A := λ w, (Throw message, w).
Definition await {A} : M A := λ w, (Await, w).

Definition bind {A B} (m : M A) (k : A → M B) : M B :=
  λ w, match m w with
       | (Ret a, w') => k a w'
       | (Throw e, w') => (Throw e, w')
       | (Await, w') => (Await, w')
       end.

(** [try { m } catch (error) { handler(error.message) }] *)
Definition try_catch {A} (m : M A) (handler : string → M A) : M A :=
  λ w, match m w with
       | (Throw e, w') => handler e w'
       | r => r
       end.

Definition get : M World := λ w, (Ret w, w).
Definition modify (f : World → World) : M unit := λ w, (Ret tt, f w).

Definition emit (e : Event) : M unit :=
  modify (λ w, mkWorld (apiKey w) (isFilesModeEnabled w)
                 (filesWorkingDirectory w) (tempFilesWorkingDirectory w)
                 (chatHistory w) (firstChunk w) (trace w ++ [e]) (stdin w)).

Definition set_stdin (l : list string) : M unit :=
  modify (λ w, mkWorld (apiKey w) (isFilesModeEnabled w)
                 (filesWorkingDirectory w) (tempFilesWorkingDirectory w)
                 (chatHistory w) (firstChunk w) (trace w) l).

Definition set_apiKey (k : Js.Value) : M unit :=
  modify (λ w, mkWorld k (isFilesModeEnabled w)
                 (filesWorkingDirectory w) (tempFilesWorkingDirectory w)
                 (chatHistory w) (firstChunk w) (trace w) (stdin w)).

Definition set_isFilesModeEnabled (b : bool) : M unit :=
  modify (λ w, mkWorld (apiKey w) b
                 (filesWorkingDirectory w) (tempFilesWorkingDirectory w)
                 (chatHistory w) (firstChunk w) (trace w) (stdin w)).

Definition set_filesWorkingDirectory (d : Js.Value) : M unit :=
  modify (λ w, mkWorld (apiKey w) (isFilesModeEnabled w)
                 d (tempFilesWorkingDirectory w)
                 (chatHistory w) (firstChunk w) (trace w) (stdin w)).

Definition set_tempFilesWorkingDirectory (d : Js.Value) : M unit :=
  modify (λ w, mkWorld (apiKey w) (isFilesModeEnabled w)
                 (filesWorkingDirectory w) d
                 (chatHistory w) (firstChunk w) (trace w) (stdin w)).

Definition set_firstChunk (b : bool) : M unit :=
  modify (λ w, mkWorld (apiKey w) (isFilesModeEnabled w)
                 (filesWorkingDirectory w) (tempFilesWorkingDirectory w)
                 (chatHistory w) b (trace w) (stdin w)).

(** [chatHistory.push(turn)] *)
Definition push (t : Turn) : M unit :=
  modify (λ w, mkWorld (apiKey w) (isFilesModeEnabled w)
                 (filesWorkingDirectory w) (tempFilesWorkingDirectory w)
                 (chatHistory w ++ [t]) (firstChunk w) (trace w) (stdin w)).

(** [await rl.question(prompt)]: the prompt is shown, then the next line of
    the user is taken. *)
Definition question (prompt : string) : M string :=
  λ w, let w' := snd (emit (Question prompt) w) in
       match stdin w' with
       | [] => (Await, w')
       | line :: rest => (Ret line, snd (set_stdin rest w'))
       end.

(** An effect whose event is [e] and whose answer the environment computes
    from the trace before it. *)
Definition call {A} (e : Event) (answer : list Event → A) : M A :=
  λ w, (Ret (answer (trace w)), snd (emit e w)).

(** Template-literal rendering [`${v}`]. *)
Definition to_string (env : Env) (v : Js.Value) : string :=
  match v with
  | Js.VUndefined => "undefined"
  | Js.VNull => "null"
  | Js.VBool true => "true"
  | Js.VBool false => "false"
  | Js.VNumber n => show_int env n
  | Js.VNaN => "NaN"
  | Js.VString s => s
  | Js.VObject => "[object Object]"
  end.

(** [path.resolve(...paths)] as an effect: a [TypeError] when an argument it
    looks at is not a string. *)
Definition path_resolve (env : Env) (paths : list Js.Value) : M string :=
  match Path.resolve (cwd env) paths with
  | Some p => ret p
  | None => throw "The path argument must be of type string"
  end.

(** [while (true) { ... await rl.question(...) ... }]: a loop whose every
    round reads one line.  [rounds n] runs at most [n] rounds; one more round
    than there are lines left is all the loop can ever run, the last of them
    being the one that waits. *)
Definition while_true {A} (rounds : nat → M A) : M A :=
  λ w, rounds (S (length (stdin w))) w.

Global Instance M_ret : MRet M := @ret.
Global Instance M_bind : MBind M := λ A B k m, bind m k.

End Rt.

(** ** [file.js] *)

Module FileOps.
Import Rt.

Section WithEnv.
Variable env : Env.

Record ExecOutcome := mkExecOutcome {
  success : bool;
  stdout : string;
  stderr : string;
  error : option string;      (* [error.message] when there is an [error] *)
}.

Definition execPromise (command : string) (cwd : Js.Value) : M ExecOutcome :=
  r ← call (Exec command cwd) (λ tr, exec env tr command cwd);
  match r with
  | ExecThrows m => throw m
  | ExecDone (Some message) stdout stderr =>
      mret (mkExecOutcome false stdout
              (if String.eqb stderr "" then message else stderr) (Some message))
  | ExecDone None stdout stderr =>
      mret (mkExecOutcome true stdout stderr None)
  end.

Definition createNewFile (basePath relativeFilePath fileContent : Js.Value)
    : M string :=
  if negb (Js.truthy relativeFilePath) || negb (Js.is_string relativeFilePath)
     || Js.includes (Js.str relativeFilePath) ".."
  then mret "Error: Invalid or potentially unsafe file path for new_file."
  else
    let relativeFilePath := Js.str relativeFilePath in
    absoluteFilePath ← path_resolve env [basePath; Js.VString relativeFilePath];
    base ← path_resolve env [basePath];
    if negb (Js.startsWith absoluteFilePath base)
    then mret "Error: File path is outside the allowed working directory for new_file."
    else
      try_catch
        (let data := Js.or fileContent (Js.VString "") in
         r ← call (FsWriteFile absoluteFilePath data)
                  (λ tr, fs_writeFile env tr absoluteFilePath data);
         match r with
         | Some m => throw m
         | None =>
             mret ("File " +:+ Js.dq +:+ relativeFilePath +:+ Js.dq +:+
                   " created successfully in " +:+ to_string env basePath +:+ ".")
         end)
        (λ message,
           mret ("Error creating file " +:+ Js.dq +:+ relativeFilePath +:+
                 Js.dq +:+ ": " +:+ message)).

Definition runShellCommand (basePath commandToRun : Js.Value) : M string :=
  if negb (Js.truthy commandToRun) || negb (Js.is_string commandToRun)
  then mret "Error: Invalid command for run_command."
  else
    let commandToRun := Js.str commandToRun in
    try_catch
      (emit (ConsoleLog ("Executing command in " +:+ to_string env basePath +:+
                         ": " +:+ commandToRun));;
       r ← execPromise commandToRun basePath;
       let result := "" in
       let result :=
         if negb (String.eqb (stdout r) "")
         then result +:+ "Stdout:" +:+ Js.nl +:+ stdout r +:+ Js.nl else result in
       let result :=
         if negb (String.eqb (stderr r) "")
         then result +:+ "Stderr:" +:+ Js.nl +:+ stderr r +:+ Js.nl else result in
       let result :=
         match success r, error r with
         | false, Some message =>
             result +:+ "Execution Error: " +:+ message +:+ Js.nl
         | _, _ => result
         end in
       let result :=
         if String.eqb result "" then "Command executed, no output produced."
         else result in
       mret (Js.trim result))
      (λ message,
         mret ("Error executing command " +:+ Js.dq +:+ commandToRun +:+
               Js.dq +:+ ": " +:+ message)).

Definition renameFile (basePath relativeOldPath relativeNewPath : Js.Value)
    : M string :=
  if negb (Js.truthy relativeOldPath) || negb (Js.is_string relativeOldPath)
     || Js.includes (Js.str relativeOldPath) ".."
     || negb (Js.truthy relativeNewPath) || negb (Js.is_string relativeNewPath)
     || Js.includes (Js.str relativeNewPath) ".."
  then mret "Error: Invalid or potentially unsafe file paths for modify_file (rename)."
  else
    let relativeOldPath := Js.str relativeOldPath in
    let relativeNewPath := Js.str relativeNewPath in
    absoluteOldPath ← path_resolve env [basePath; Js.VString relativeOldPath];
    absoluteNewPath ← path_resolve env [basePath; Js.VString relativeNewPath];
    base ← path_resolve env [basePath];
    if negb (Js.startsWith absoluteOldPath base)
       || negb (Js.startsWith absoluteNewPath base)
    then mret "Error: File paths are outside the allowed working directory for modify_file (rename)."
    else
      try_catch
        (r ← call (FsRename absoluteOldPath absoluteNewPath)
                  (λ tr, fs_rename env tr absoluteOldPath absoluteNewPath);
         match r with
         | Some m => throw m
         | None =>
             mret ("File " +:+ Js.dq +:+ relativeOldPath +:+ Js.dq +:+
                   " renamed/moved to " +:+ Js.dq +:+ relativeNewPath +:+ Js.dq +:+
                   " successfully in " +:+ to_string env basePath +:+ ".")
         end)
        (λ message,
           mret ("Error renaming file " +:+ Js.dq +:+ relativeOldPath +:+ Js.dq +:+
                 " to " +:+ Js.dq +:+ relativeNewPath +:+ Js.dq +:+ ": " +:+ message)).

End WithEnv.
End FileOps.

(** ** [zeno.js] *)

Module Zeno.
Import Rt.

Section WithEnv.
Variable env : Env.

Definition ACTIVE_MODEL : string := "gemini-2.5-flash-preview-05-20".

(** The names of the declared tools. *)
Definition webSearchTool : list string := ["web_search"].
Definition fileSystemToolDeclarations : list string :=
  ["new_file"; "run_command"; "modify_file"].

Definition filesActive (w : World) : bool :=
  isFilesModeEnabled w &&
  (Js.truthy (filesWorkingDirectory w) || Js.truthy (tempFilesWorkingDirectory w)).

Definition getActiveTools (w : World) : list string :=
  webSearchTool ++ (if filesActive w then fileSystemToolDeclarations else []).

Definition ensureConfigDir : M unit :=
  r ← call FsMkdirConfig (fs_mkdir env);
  match r with
  | MkdirOk => mret tt
  | MkdirFails code message =>
      if negb (String.eqb code "EEXIST") then throw message else mret tt
  end.

(** Returns the parsed object, [None] standing for the empty object [{}]. *)
Definition loadConfig : M (option (Js.Value * Js.Value)) :=
  ensureConfigDir;;
  try_catch
    (r ← call FsReadConfig (fs_readConfig env);
     match r with
     | ReadThrows m => throw m
     | ReadNull => throw "Cannot read properties of null (reading 'apiKey')"
     | ReadObject config_apiKey config_filesWorkingDirectory =>
         set_apiKey config_apiKey;;
         set_filesWorkingDirectory (Js.or config_filesWorkingDirectory Js.VNull);;
         w ← get;
         (if Js.truthy (filesWorkingDirectory w)
          then set_isFilesModeEnabled true else mret tt);;
         mret (Some (config_apiKey, config_filesWorkingDirectory))
     end)
    (λ _, mret None).

Definition configToSave (w : World) : Config :=
  mkConfig (apiKey w)
    (if Js.truthy (filesWorkingDirectory w)
        && negb (Js.truthy (tempFilesWorkingDirectory w))
     then Some (filesWorkingDirectory w) else None).

Definition saveConfig : M unit :=
  ensureConfigDir;;
  w ← get;
  let configToSave := configToSave w in
  try_catch
    (r ← call (FsWriteConfig configToSave) (λ tr, fs_writeConfig env tr configToSave);
     match r with Some m => throw m | None => mret tt end)
    (λ message, emit (ConsoleLog ("Error saving Zeno configuration: " +:+ message))).

Definition startNewChatSession : M unit :=
  w ← get;
  emit (StartChat (getActiveTools w) (chatHistory w));;
  emit (ConsoleLog ("Chat session (re)started with " +:+ ACTIVE_MODEL +:+ "."));;
  emit (ConsoleLog "Web search tool is available.");;
  if filesActive w
  then emit (ConsoleLog ("File manipulation tools are ENABLED for directory: " +:+
               to_string env (Js.or (filesWorkingDirectory w)
                                    (tempFilesWorkingDirectory w))))
  else emit (ConsoleLog "File manipulation tools are DISABLED.").

Definition executeWebSearch (term_to_search : Js.Value) : M string :=
  emit (StdoutWrite ("Zeno is performing web search for: " +:+ Js.dq +:+
          to_string env term_to_search +:+ Js.dq +:+ "..." +:+ Js.nl));;
  let encodedTerm := encodeURIComponent env term_to_search in
  let url := "https://text.pollinations.ai/prompt/" +:+ encodedTerm +:+
             "?model=searchgpt" in
  r ← call (HttpsGet url) (λ tr, https_get env tr url);
  match r with
  | HttpResponse statusCode data =>
      if (200 <=? statusCode)%Z && (statusCode <? 300)%Z then mret data
      else
        emit (ConsoleLog ("Web search API error: Status " +:+ show_int env statusCode));;
        mret ("Error: Failed to fetch search results. Status: " +:+
              show_int env statusCode)
  | HttpError message =>
      emit (ConsoleLog ("Web search request error: " +:+ message));;
      mret ("Error: Could not connect to the web search service. " +:+ message)
  end.

Record Confirmation := mkConfirmation { confirmed : bool; explain : bool }.

Definition confirmPrompt : string :=
  "Confirm? (1: Yes, 2: No, 3: Explain action): ".

(** The [while (true)] of [handleToolConfirmation]. *)
Fixpoint confirmLoop (rounds : nat) : M Confirmation :=
  match rounds with
  | 0 => await
  | S rounds' =>
      choice ← question confirmPrompt;
      if String.eqb choice "1" then mret (mkConfirmation true false)
      else if String.eqb choice "2" then mret (mkConfirmation false false)
      else if String.eqb choice "3" then mret (mkConfirmation false true)
      else
        emit (ConsoleLog "Invalid choice. Please enter 1, 2, or 3.");;
        confirmLoop rounds'
  end.

Definition handleToolConfirmation (toolCall : ToolCall) : M Confirmation :=
  let name := tc_name toolCall in
  let args := tc_args toolCall in
  w ← get;
  let currentDir := Js.or (tempFilesWorkingDirectory w) (filesWorkingDirectory w) in
  emit (ConsoleLog (Js.nl +:+ "--- ACTION CONFIRMATION ---"));;
  emit (ConsoleLog "Zeno wants to perform the following action:");;
  emit (ConsoleLog ("Tool: " +:+ name));;
  emit (ConsoleLog ("Arguments: " +:+ JSON_stringify env args));;
  (if negb (String.eqb name "web_search")
   then emit (ConsoleLog ("In directory: " +:+ to_string env currentDir))
   else mret tt);;
  (if String.eqb name "run_command"
   then emit (ConsoleLog "WARNING: Executing shell commands can be dangerous!")
   else mret tt);;
  while_true confirmLoop.

Definition dirPrompt : string :=
  "Enter full path to the folder Zeno can manage, or type 'this_folder': ".

(** The boolean tells whether control reaches the call of
    [startNewChatSession] at the end ([false]: an early [return]). *)
Definition toggleFilesMode_body : M bool :=
  w ← get;
  if isFilesModeEnabled w then
    set_isFilesModeEnabled false;;
    emit (ConsoleLog "File manipulation mode DISABLED.");;
    saveConfig;;
    mret true
  else
    emit (ConsoleLog "Enable file manipulation mode:");;
    chosenDir ← question dirPrompt;
    let chosenDir := Js.trim chosenDir in
    if String.eqb (Js.toLowerCase chosenDir) "this_folder" then
      set_tempFilesWorkingDirectory (Js.VString (cwd env));;
      set_filesWorkingDirectory Js.VNull;;
      emit (ConsoleLog ("File manipulation enabled for current directory (TEMPORARY): "
                        +:+ cwd env));;
      set_isFilesModeEnabled true;;
      mret true
    else if negb (String.eqb chosenDir "") then
      try_catch
        (stats ← call (FsStat chosenDir) (λ tr, fs_stat env tr chosenDir);
         match stats with
         | StatFails m => throw m
         | StatOk isDirectory =>
             if negb isDirectory then
               emit (ConsoleLog "Error: Path provided is not a directory. File mode NOT enabled.");;
               mret false
             else
               resolved ← path_resolve env [Js.VString chosenDir];
               set_filesWorkingDirectory (Js.VString resolved);;
               set_tempFilesWorkingDirectory Js.VNull;;
               set_isFilesModeEnabled true;;
               emit (ConsoleLog ("File manipulation enabled for directory (SAVED): "
                                 +:+ resolved));;
               saveConfig;;
               mret true
         end)
        (λ message,
           emit (ConsoleLog ("Error accessing path " +:+ Js.dq +:+ chosenDir +:+ Js.dq
                             +:+ ": " +:+ message +:+ ". File mode NOT enabled."));;
           mret false)
    else
      emit (ConsoleLog "No directory provided. File manipulation mode remains disabled.");;
      mret false.

Definition toggleFilesMode : M unit :=
  proceed ← toggleFilesMode_body;
  if (proceed : bool) then startNewChatSession else mret tt.

(** The [for await] over the chunks of the model's reply. *)
Fixpoint streamResponse (chunks : list Chunk)
    (aggregatedFunctionCall : option ToolCall) (fullResponseText : string)
    : M (option ToolCall * string) :=
  match chunks with
  | [] => mret (aggregatedFunctionCall, fullResponseText)
  | chunk :: chunks' =>
      w ← get;
      (if firstChunk w
       then emit ClearLine;; emit (StdoutWrite "Zeno: ");; set_firstChunk false
       else mret tt);;
      let aggregatedFunctionCall :=
        match chunk_functionCalls chunk with
        | call :: _ => Some call
        | [] => aggregatedFunctionCall
        end in
      let chunkText := chunk_text chunk in
      if negb (String.eqb chunkText "") then
        emit (StdoutWrite chunkText);;
        streamResponse chunks' aggregatedFunctionCall (fullResponseText +:+ chunkText)
      else streamResponse chunks' aggregatedFunctionCall fullResponseText
  end.

(** The [for await] over the chunks of the explanation. *)
Fixpoint streamExplanation (chunks : list Chunk) (explanationText : string)
    : M string :=
  match chunks with
  | [] => mret explanationText
  | chunk :: chunks' =>
      w ← get;
      (if firstChunk w
       then emit ClearLine;; emit (StdoutWrite "Zeno (Explanation): ");;
            set_firstChunk false
       else mret tt);;
      let text := chunk_text chunk in
      if negb (String.eqb text "") then
        emit (StdoutWrite text);;
        streamExplanation chunks' (explanationText +:+ text)
      else streamExplanation chunks' explanationText
  end.

Definition reconfirmPrompt : string := "Confirm action? (1: Yes, 2: No): ".

(** The [while (true)] after the explanation; it yields the new value of
    [userConfirmation.confirmed]. *)
Fixpoint reconfirmLoop (rounds : nat) : M bool :=
  match rounds with
  | 0 => await
  | S rounds' =>
      choice ← question reconfirmPrompt;
      if String.eqb choice "1" then mret true
      else if String.eqb choice "2" then mret false
      else emit (ConsoleLog "Invalid choice.");; reconfirmLoop rounds'
  end.

Definition explanationRequest (toolCall : ToolCall) : string :=
  "User is asking for an explanation. Please explain why you (Zeno) want to execute the tool '"
  +:+ tc_name toolCall +:+ "' with arguments " +:+ JSON_stringify env (tc_args toolCall)
  +:+ " in the context of our current conversation, and what the expected outcome or purpose is. Be concise.".

(** The branch [if (userConfirmation.explain)] of [main]. *)
Definition explainRound (toolCall : ToolCall) (userConfirmation : Confirmation)
    : M Confirmation :=
  let explanationRequest := explanationRequest toolCall in
  push (mkTurn "model" [PFunctionCall toolCall]);;
  push (mkTurn "user"
          [PText ("(System: User requested explanation for your proposed action: "
                  +:+ tc_name toolCall +:+ ")")]);;
  emit (StdoutWrite "Zeno is typing (explanation)...");;
  explanationResult ← call (SendText explanationRequest) (sendMessageStream env);
  match explanationResult with
  | StreamThrows m => throw m
  | StreamOk chunks _ _ _ =>
      set_firstChunk true;;
      explanationText ← streamExplanation chunks "";
      w ← get;
      (if negb (firstChunk w) then emit (StdoutWrite Js.nl) else mret tt);;
      push (mkTurn "model" [PText explanationText]);;
      emit (ConsoleLog (Js.nl +:+ "--- ACTION CONFIRMATION (after explanation) ---"));;
      c ← while_true reconfirmLoop;
      mret (mkConfirmation c (explain userConfirmation))
  end.

Definition deniedMessage : string := "User denied execution of this action.".

(** The [switch (toolCall.name)] of [main]. *)
Definition dispatch (toolCall : ToolCall) (currentActiveDir : Js.Value) : M string :=
  let name := tc_name toolCall in
  if String.eqb name "web_search" then
    executeWebSearch (arg toolCall "term_to_search")
  else if String.eqb name "new_file" then
    FileOps.createNewFile env currentActiveDir
      (arg toolCall "file_path") (arg toolCall "file_content")
  else if String.eqb name "run_command" then
    FileOps.runShellCommand env currentActiveDir (arg toolCall "command_to_run")
  else if String.eqb name "modify_file" then
    FileOps.renameFile env currentActiveDir
      (arg toolCall "file_path") (arg toolCall "new_file_name")
  else
    let toolExecutionResult := "Error: Unknown tool '" +:+ name +:+ "' requested." in
    emit (ConsoleLog toolExecutionResult);;
    mret toolExecutionResult.

(** The branch [if (aggregatedFunctionCall)] of [main]; the result is the new
    value of [continueLoop]. *)
Definition toolBranch (toolCall : ToolCall) : M bool :=
  userConfirmation ←
    (if negb (String.eqb (tc_name toolCall) "web_search")
     then handleToolConfirmation toolCall
     else mret (mkConfirmation true false));
  userConfirmation ←
    (if explain userConfirmation
     then explainRound toolCall userConfirmation
     else mret userConfirmation);
  if confirmed userConfirmation then
    push (mkTurn "model" [PFunctionCall toolCall]);;
    w ← get;
    let currentActiveDir :=
      Js.or (tempFilesWorkingDirectory w) (filesWorkingDirectory w) in
    toolExecutionResult ← dispatch toolCall currentActiveDir;
    push (mkTurn "function"
            [PFunctionResponse (tc_name toolCall) toolExecutionResult]);;
    mret true
  else
    push (mkTurn "model" [PFunctionCall toolCall]);;
    push (mkTurn "function" [PFunctionResponse (tc_name toolCall) deniedMessage]);;
    emit (ConsoleLog "Action denied by user.");;
    mret true.

(** One round of [while (continueLoop)]; the result is [continueLoop] at the
    end of the round. *)
Definition round : M bool :=
  set_firstChunk true;;
  emit (StdoutWrite "Zeno is typing...");;
  try_catch
    (w ← get;
     message ← match last (chatHistory w) with
               | Some turn => mret (parts turn)
               | None => throw "Cannot read properties of undefined (reading 'parts')"
               end;
     result ← call (SendParts message) (sendMessageStream env);
     match result with
     | StreamThrows m => throw m
     | StreamOk chunks finalCall finishReason safetyRatings =>
         '(aggregatedFunctionCall, fullResponseText) ← streamResponse chunks None "";
         w ← get;
         (if negb (firstChunk w) then emit (StdoutWrite Js.nl) else mret tt);;
         let aggregatedFunctionCall :=
           match finalCall with
           | Some call => Some call
           | None => aggregatedFunctionCall
           end in
         match aggregatedFunctionCall with
         | Some toolCall => toolBranch toolCall
         | None =>
             if negb (String.eqb (Js.trim fullResponseText) "") then
               push (mkTurn "model" [PText fullResponseText]);;
               mret false
             else
               match finishReason with
               | Some reason =>
                   if negb (String.eqb reason "") && negb (String.eqb reason "STOP")
                   then
                     emit (ConsoleLog ("Zeno: (Responded without text. Finish Reason: "
                                       +:+ reason +:+ ")"));;
                     (match safetyRatings with
                      | Some ratings =>
                          emit (ConsoleLog ("Safety Ratings: " +:+ ratings))
                      | None => mret tt
                      end);;
                     mret false
                   else mret false
               | None => mret false
               end
         end
     end)
    (λ message,
       w ← get;
       (if negb (firstChunk w) then emit (StdoutWrite Js.nl) else emit ClearLine);;
       emit (ConsoleLog ("Error communicating with Gemini: " +:+ message));;
       (if Js.includes message "SAFETY"
        then emit (ConsoleLog "This might be due to safety settings.")
        else mret tt);;
       mret false).

(** [while (continueLoop)], cut after [n] rounds. *)
Fixpoint chatRounds (n : nat) : M unit :=
  match n with
  | 0 => mret tt
  | S n' =>
      continueLoop ← round;
      if (continueLoop : bool) then chatRounds n' else mret tt
  end.

End WithEnv.

(** The module-level variables as the program starts. *)
Definition initialWorld (lines : list string) : World :=
  mkWorld Js.VUndefined false Js.VNull Js.VNull [] true [] lines.

End Zeno.

(** ** Vocabulary of the properties *)

Module Props.
Import Rt.

Global Instance Value_eq_dec : EqDecision Js.Value.
Proof. solve_decision. Defined.
Global Instance ToolCall_eq_dec : EqDecision ToolCall.
Proof. solve_decision. Defined.
Global Instance Part_eq_dec : EqDecision Part.
Proof. solve_decision. Defined.
Global Instance Turn_eq_dec : EqDecision Turn.
Proof. solve_decision. Defined.

(** The events by which a capability executor acts on the outside. *)
Definition executorEvent (e : Event) : bool :=
  match e with
  | FsWriteFile _ _ | FsRename _ _ | Exec _ _ | HttpsGet _ => true
  | _ => false
  end.

Definition notExecutor (e : Event) : bool := negb (executorEvent e).

Definition notQuestion (e : Event) : bool :=
  match e with Question _ => false | _ => true end.

Definition anyEvent (e : Event) : bool := true.

Definition notConfigWrite (e : Event) : bool :=
  match e with FsWriteConfig _ => false | _ => true end.

(** Neither a prompt nor an executor's act: plain output. *)
Definition output (e : Event) : bool := notQuestion e && notExecutor e.

(** [emits P m]: whatever the world, running [m] only appends events to the
    trace, and each of them satisfies [P]. *)
Definition emits {A} (P : Event → bool) (m : M A) : Prop :=
  ∀ w, ∃ evs, trace (m w).2 = trace w ++ evs ∧ Forall (λ e, P e = true) evs.

(** Everything of a world but its trace and the lines still to be read. *)
Definition frame (w w' : World) : Prop :=
  apiKey w' = apiKey w ∧ isFilesModeEnabled w' = isFilesModeEnabled w ∧
  filesWorkingDirectory w' = filesWorkingDirectory w ∧
  tempFilesWorkingDirectory w' = tempFilesWorkingDirectory w ∧
  chatHistory w' = chatHistory w ∧ firstChunk w' = firstChunk w.

(** The session mode alone. *)
Definition sameMode (w w' : World) : Prop :=
  apiKey w' = apiKey w ∧ isFilesModeEnabled w' = isFilesModeEnabled w ∧
  filesWorkingDirectory w' = filesWorkingDirectory w ∧
  tempFilesWorkingDirectory w' = tempFilesWorkingDirectory w.

(** From [w] to [w'] nothing happened but events that satisfy [P]. *)
Definition onlyEmits (P : Event → bool) (w w' : World) : Prop :=
  stdin w' = stdin w ∧ chatHistory w' = chatHistory w ∧ sameMode w w' ∧
  ∃ evs, trace w' = trace w ++ evs ∧ Forall (λ e, P e = true) evs.

(** The world [w] after the events [evs]. *)
Definition after (w : World) (evs : list Event) : World :=
  mkWorld (apiKey w) (isFilesModeEnabled w) (filesWorkingDirectory w)
    (tempFilesWorkingDirectory w) (chatHistory w) (firstChunk w)
    (trace w ++ evs) (stdin w).

(** The address [executeWebSearch] fetches. *)
Definition searchUrl (env : Env) (term : Js.Value) : string :=
  "https://text.pollinations.ai/prompt/" +:+ encodeURIComponent env term +:+
  "?model=searchgpt".

(** A path argument the validation has to refuse: not a string, empty, or
    with a parent-directory segment. *)
Definition invalidPath (v : Js.Value) : Prop :=
  Js.is_string v = false ∨ v = Js.VString "" ∨
  ∃ p, v = Js.VString p ∧ In ".." (Path.split p).

(** A command the validation has to refuse: not a string, or empty. *)
Definition invalidCommand (v : Js.Value) : Prop :=
  Js.is_string v = false ∨ v = Js.VString "".

(** The answers that resolve the first prompt, and the second one. *)
Definition validInitial (choice : string) : bool :=
  String.eqb choice "1" || String.eqb choice "2" || String.eqb choice "3".

Definition validAfter (choice : string) : bool :=
  String.eqb choice "1" || String.eqb choice "2".

Definition initialDecision (choice : string) : Zeno.Confirmation :=
  Zeno.mkConfirmation (String.eqb choice "1") (String.eqb choice "3").

Definition invalidInitialMessage : string := "Invalid choice. Please enter 1, 2, or 3.".
Definition invalidAfterMessage : string := "Invalid choice.".

(** What the terminal shows for a run of refused answers: for each of them
    the prompt and the complaint. *)
Definition reprompts (prompt complaint : string) (bad : list string) : list Event :=
  flat_map (λ _, [Question prompt; ConsoleLog complaint]) bad.

(** What the confirmation shows before it asks. *)
Definition presentation (env : Env) (toolCall : ToolCall) (w : World) : list Event :=
  [ ConsoleLog (Js.nl +:+ "--- ACTION CONFIRMATION ---");
    ConsoleLog "Zeno wants to perform the following action:";
    ConsoleLog ("Tool: " +:+ tc_name toolCall);
    ConsoleLog ("Arguments: " +:+ JSON_stringify env (tc_args toolCall));
    ConsoleLog ("In directory: " +:+
      to_string env (Js.or (tempFilesWorkingDirectory w) (filesWorkingDirectory w))) ]
  ++ (if String.eqb (tc_name toolCall) "run_command"
      then [ConsoleLog "WARNING: Executing shell commands can be dangerous!"]
      else []).

(** The turns of the transcript that the handling of a request appends. *)
Definition requestTurn (toolCall : ToolCall) : Turn :=
  mkTurn "model" [PFunctionCall toolCall].

Definition denialTurn (toolCall : ToolCall) : Turn :=
  mkTurn "function" [PFunctionResponse (tc_name toolCall) Zeno.deniedMessage].

Definition explanationAsked (toolCall : ToolCall) : Turn :=
  mkTurn "user"
    [PText ("(System: User requested explanation for your proposed action: "
            +:+ tc_name toolCall +:+ ")")].

(** The text of a stream: its chunks' texts, one after the other. *)
Fixpoint streamText (chunks : list Chunk) : string :=
  match chunks with
  | [] => ""
  | chunk :: chunks' => chunk_text chunk +:+ streamText chunks'
  end.

Definition explanationTurn (chunks : list Chunk) : Turn :=
  mkTurn "model" [PText (streamText chunks)].

(** What a denial at the first prompt appends to the transcript, and what a
    denial after an explanation appends. *)
Definition deniedOutright (toolCall : ToolCall) : list Turn :=
  [requestTurn toolCall; denialTurn toolCall].

Definition deniedAfterExplanation (toolCall : ToolCall) (chunks : list Chunk)
    : list Turn :=
  [requestTurn toolCall; explanationAsked toolCall; explanationTurn chunks;
   requestTurn toolCall; denialTurn toolCall].

Definition typingExplanation : Event :=
  StdoutWrite "Zeno is typing (explanation)...".

Definition occurrences (t : Turn) (history : list Turn) : nat :=
  length (filter (λ x, x = t) history).

(** [ensureConfigDir] goes through: the directory is made or is there. *)
Definition mkdirPasses (env : Env) (tr : list Event) : Prop :=
  match fs_mkdir env tr with
  | MkdirOk => True
  | MkdirFails code _ => code = "EEXIST"
  end.

Definition noOutput : string := "Command executed, no output produced.".

(** The sections of the outcome of a command, before [trim]: each stream
    under its heading when it is not empty, then the error's message. *)
Definition section (heading text : string) : string :=
  if String.eqb text "" then "" else heading +:+ text +:+ Js.nl.

Definition composed (error : option string) (stdout stderr : string) : string :=
  section ("Stdout:" +:+ Js.nl) stdout +:+
  section ("Stderr:" +:+ Js.nl)
    (match error with
     | Some message => if String.eqb stderr "" then message else stderr
     | None => stderr
     end) +:+
  match error with
  | Some message => "Execution Error: " +:+ message +:+ Js.nl
  | None => ""
  end.

End Props.

(** ** A concrete environment and concrete worlds, for running the model *)

Module Sample.
Import Rt.

(** A quiet outside: every file-system call succeeds, every path is a
    directory, commands print nothing and the model says nothing. *)
Definition env0 : Env := {|
  cwd := "/home/u";
  JSON_stringify := λ _, "{}";
  encodeURIComponent := λ v, Js.str v;
  show_int := λ _, "0";
  fs_writeFile := λ _ _ _, None;
  fs_rename := λ _ _ _, None;
  fs_stat := λ _ _, StatOk true;
  fs_mkdir := λ _, MkdirOk;
  fs_readConfig := λ _, ReadObject (Js.VString "key") (Js.VString "/srv/work");
  fs_writeConfig := λ _ _, None;
  exec := λ _ _ _, ExecDone None "" "";
  https_get := λ _ _, HttpResponse 200 "";
  sendMessageStream := λ _, StreamOk [] None None None;
|}.

(** File mode enabled on the persisted directory [/srv/work]. *)
Definition persisted (lines : list string) : World :=
  mkWorld (Js.VString "key") true (Js.VString "/srv/work") Js.VNull [] true [] lines.

(** File mode enabled on the temporary directory [/home/u]. *)
Definition temporary (lines : list string) : World :=
  mkWorld (Js.VString "key") true Js.VNull (Js.VString "/home/u") [] true [] lines.

Definition new_file_call (file_path : string) : ToolCall :=
  mkToolCall "new_file"
    (<["file_path" := Js.VString file_path]>
       (<["file_content" := Js.VString "hi"]> ∅)).

(** [/files] twice in the session with the persisted directory: off, then
    on again. *)
Definition offThenOn (lines : list string) : Outcome unit * World :=
  (Zeno.toggleFilesMode env0;; Zeno.toggleFilesMode env0) (persisted lines).

Definition web_search_call : ToolCall :=
  mkToolCall "web_search" (<["term_to_search" := Js.VString "rocq"]> ∅).

End Sample.

(** ** Vocabulary of the further properties *)

Module More.
Import Rt Props.

(** [keeps R m]: running [m] takes every world to one that [R] relates to
    it. *)
Definition keeps {A} (R : World → World → Prop) (m : M A) : Prop :=
  ∀ w, R w (m w).2.

(** Nothing but the trace differs. *)
Definition untouched (w w' : World) : Prop := frame w w' ∧ stdin w' = stdin w.

(** The transcript is the old one with turns appended. *)
Definition historyGrows (w w' : World) : Prop :=
  ∃ added, chatHistory w' = chatHistory w ++ added.

Definition sameTranscript (w w' : World) : Prop := chatHistory w' = chatHistory w.

(** Whenever file mode is on, a working directory is set. *)
Definition modeInvariant (w : World) : Prop :=
  isFilesModeEnabled w = true → Zeno.filesActive w = true.

Fixpoint noSlash (s : string) : bool :=
  match s with
  | EmptyString => true
  | String c s' => negb (Ascii.eqb c "/") && noSlash s'
  end.

(** A proper path component: not empty and without [/]. *)
Definition component (seg : string) : bool :=
  noSlash seg && negb (String.eqb seg "").

(** The segments [normalizeString] keeps when there is no [..] among them. *)
Definition kept (seg : string) : bool :=
  negb (String.eqb seg "" || String.eqb seg ".").

Definition isStart (e : Event) : bool :=
  match e with StartChat _ _ => true | _ => false end.

(** No line the user is going to type is the approval [1]. *)
Definition unapproved (w : World) : Prop :=
  Forall (λ line : string, line ≠ "1") (stdin w).

Definition staysUnapproved (w w' : World) : Prop := unapproved w → unapproved w'.

(** The acts on the user's files and machine. *)
Definition fileAct (e : Event) : bool :=
  match e with
  | FsWriteFile _ _ | FsRename _ _ | Exec _ _ => true
  | _ => false
  end.

Definition noFileAct (e : Event) : bool := negb (fileAct e).

(** [safe P m]: run without an approval to come, [m] leaves the input without
    one and only appends events that satisfy [P]. *)
Definition safeAt {A} (P : Event → bool) (m : M A) (w : World) : Prop :=
  unapproved (m w).2 ∧
  ∃ evs, trace (m w).2 = trace w ++ evs ∧ Forall (λ e, P e = true) evs.

Definition safe {A} (P : Event → bool) (m : M A) : Prop :=
  ∀ w, unapproved w → safeAt P m w.

(** The turn that records the outcome of a request. *)
Definition responseTurn (toolCall : ToolCall) (result : string) : Turn :=
  mkTurn "function" [PFunctionResponse (tc_name toolCall) result].

(** The directory a request is executed in. *)
Definition activeDir (w : World) : Js.Value :=
  Js.or (tempFilesWorkingDirectory w) (filesWorkingDirectory w).

(** The world in which an approved request is executed: the request was
    shown, the answers [bad] were refused, the approval was read, and the
    request is on the transcript. *)
Definition atExecution (env : Env) (toolCall : ToolCall) (w : World)
    (bad rest : list string) : World :=
  mkWorld (apiKey w) (isFilesModeEnabled w) (filesWorkingDirectory w)
    (tempFilesWorkingDirectory w) (chatHistory w ++ [requestTurn toolCall])
    (firstChunk w)
    (trace w ++ presentation env toolCall w ++
     reprompts Zeno.confirmPrompt invalidInitialMessage bad ++
     [Question Zeno.confirmPrompt])
    rest.

Definition unknownTool (name : string) : string :=
  "Error: Unknown tool '" +:+ name +:+ "' requested.".

Definition neverThrows {A} (m : M A) : Prop :=
  ∀ w message, (m w).1 ≠ Throw message.

(** The request a stream leaves in [aggregatedFunctionCall]: the first call
    of the last chunk that has calls. *)
Fixpoint streamCall (chunks : list Chunk) (aggregated : option ToolCall)
    : option ToolCall :=
  match chunks with
  | [] => aggregated
  | chunk :: chunks' =>
      streamCall chunks'
        (match chunk_functionCalls chunk with
         | call :: _ => Some call
         | [] => aggregated
         end)
  end.

(** The request of a reply: the one of the final response when it has one,
    else the one of the stream. *)
Definition requested (chunks : list Chunk) (finalCall : option ToolCall)
    : option ToolCall :=
  match finalCall with
  | Some call => Some call
  | None => streamCall chunks None
  end.

Definition typing : Event := StdoutWrite "Zeno is typing...".

Definition modelError (message : string) : list Event :=
  ConsoleLog ("Error communicating with Gemini: " +:+ message) ::
  (if Js.includes message "SAFETY"
   then [ConsoleLog "This might be due to safety settings."] else []).

(** What [/files] can do to the mode of the session: switch file mode off and
    keep both directories; or, from file mode off, change nothing, or switch
    to the current directory as the temporary one, or switch to the resolved
    directory the user named as the persisted one. *)
Definition toggled (env : Env) (w w' : World) : Prop :=
  apiKey w' = apiKey w ∧
  if isFilesModeEnabled w then
    isFilesModeEnabled w' = false ∧
    filesWorkingDirectory w' = filesWorkingDirectory w ∧
    tempFilesWorkingDirectory w' = tempFilesWorkingDirectory w
  else
    sameMode w w' ∨
    (∃ line rest,
       stdin w = line :: rest ∧ Js.toLowerCase (Js.trim line) = "this_folder" ∧
       isFilesModeEnabled w' = true ∧
       tempFilesWorkingDirectory w' = Js.VString (cwd env) ∧
       filesWorkingDirectory w' = Js.VNull) ∨
    (∃ line rest resolved,
       stdin w = line :: rest ∧
       Path.resolve (cwd env) [Js.VString (Js.trim line)] = Some resolved ∧
       isFilesModeEnabled w' = true ∧
       tempFilesWorkingDirectory w' = Js.VNull ∧
       filesWorkingDirectory w' = Js.VString resolved).

(** Neither a write of the configuration nor a restart of the chat. *)
Definition quiet (e : Event) : bool := notConfigWrite e && negb (isStart e).

(** What reading the configuration back yields once [c] has been written:
    [JSON.parse] of [JSON.stringify] of an object whose key is a string and
    whose directory, when it has one, is the value stored. *)
Definition parsed (c : Config) : ReadResult :=
  ReadObject (cfg_apiKey c)
    (match cfg_filesWorkingDirectory c with
     | Some d => d
     | None => Js.VUndefined
     end).

Definition withApiKey (w : World) (k : Js.Value) : World :=
  mkWorld k (isFilesModeEnabled w) (filesWorkingDirectory w)
    (tempFilesWorkingDirectory w) (chatHistory w) (firstChunk w) (trace w)
    (stdin w).

End More.

(** ** The start of the program *)

Module Startup.
Import Rt.

Section WithEnv.
Variable env : Env.

Definition keyPrompt : string := "Please enter your Gemini API Key: ".
Definition savePrompt : string :=
  "Do you want to save this API Key for future use? (yes/no): ".

(** [None] is [process.exit(1)]: nothing of the program runs after it. *)
Definition promptForApiKey : M (option string) :=
  emit (ConsoleLog "Gemini API Key not found in Zeno's configuration.");;
  key ← question keyPrompt;
  if String.eqb key "" then
    emit (ConsoleLog "API Key cannot be empty. Exiting.");;
    mret None
  else
    set_apiKey (Js.VString key);;
    saveChoice ← question savePrompt;
    (if Js.startsWith (Js.toLowerCase saveChoice) "y"
     then Zeno.saveConfig env;; emit (ConsoleLog "API Key saved.")
     else mret tt);;
    mret (Some key).

(** [false] is [process.exit(1)]. *)
Definition initializeGeminiClient : M bool :=
  w ← get;
  if negb (Js.truthy (apiKey w)) then
    emit (ConsoleLog "API Key is not set. Cannot initialize Gemini client.");;
    mret false
  else
    Zeno.startNewChatSession env;;
    mret true.

End WithEnv.
End Startup.

(** ** Further sample environments *)

Module Cases.
Import Rt.

(** No configuration can be read and the model cannot be reached. *)
Definition offline : Env := {|
  cwd := "/home/u";
  JSON_stringify := λ _, "{}";
  encodeURIComponent := λ v, Js.str v;
  show_int := λ _, "0";
  fs_writeFile := λ _ _ _, None;
  fs_rename := λ _ _ _, None;
  fs_stat := λ _ _, StatFails "ENOENT";
  fs_mkdir := λ _, MkdirFails "EEXIST" "file already exists";
  fs_readConfig := λ _, ReadThrows "ENOENT";
  fs_writeConfig := λ _ _, Some "EACCES";
  exec := λ _ _ _, ExecThrows "spawn failed";
  https_get := λ _ _, HttpError "ENOTFOUND";
  sendMessageStream := λ _, StreamThrows "quota";
|}.

(** The model asks for a web search. *)
Definition searching : Env := {|
  cwd := "/home/u";
  JSON_stringify := λ _, "{}";
  encodeURIComponent := λ v, Js.str v;
  show_int := λ _, "0";
  fs_writeFile := λ _ _ _, None;
  fs_rename := λ _ _ _, None;
  fs_stat := λ _ _, StatOk true;
  fs_mkdir := λ _, MkdirOk;
  fs_readConfig := λ _, ReadNull;
  fs_writeConfig := λ _ _, None;
  exec := λ _ _ _, ExecDone None "" "";
  https_get := λ _ _, HttpResponse 200 "Rocq 9.0";
  sendMessageStream :=
    λ _, StreamOk [mkChunk [Sample.web_search_call] ""] None None None;
|}.

(** A session that has just received the user's first message. *)
Definition greeted : World :=
  mkWorld (Js.VString "key") false Js.VNull Js.VNull
    [mkTurn "user" [PText "hello"]] true [] [].

(** The configuration directory cannot be created. *)
Definition readonly : Env := {|
  cwd := "/home/u";
  JSON_stringify := λ _, "{}";
  encodeURIComponent := λ v, Js.str v;
  show_int := λ _, "0";
  fs_writeFile := λ _ _ _, None;
  fs_rename := λ _ _ _, None;
  fs_stat := λ _ _, StatOk true;
  fs_mkdir := λ _, MkdirFails "EACCES" "permission denied";
  fs_readConfig := λ _, ReadThrows "ENOENT";
  fs_writeConfig := λ _ _, Some "EACCES";
  exec := λ _ _ _, ExecDone None "" "";
  https_get := λ _ _, HttpResponse 200 "";
  sendMessageStream := λ _, StreamOk [] None None None;
|}.

End Cases.

(** ** Facts about strings and paths *)

Module PathFacts.

Lemma split_not_nil s : Path.split s ≠ [].
Proof.
  destruct s as [|c s]; simpl; [done|].
  destruct (Ascii.eqb c "/"); [done|].
  destruct (Path.split s); done.
Qed.

Lemma split_cons c s :
  Path.split (String c s) =
  if Ascii.eqb c "/" then "" :: Path.split s
  else match Path.split s with
       | seg :: rest => String c seg :: rest
       | [] => [String c ""]
       end.
Proof. reflexivity. Qed.

(** The first segment of a path is a prefix of the path. *)
Lemma split_head_prefix s : ∀ seg rest,
  Path.split s = seg :: rest → Js.startsWith s seg = true.
Proof.
  induction s as [|c s IH]; intros seg rest.
  - intros [= <- <-]. reflexivity.
  - rewrite split_cons. destruct (Ascii.eqb c "/").
    + intros [= <- <-]. reflexivity.
    + destruct (Path.split s) as [|seg' rest'] eqn:E.
      { by destruct (split_not_nil s). }
      intros [= <- <-]. cbn [Js.startsWith].
      rewrite Ascii.eqb_refl. by eapply IH.
Qed.

Lemma includes_prefix s t : Js.startsWith s t = true → Js.includes s t = true.
Proof. intros H. destruct s; cbn [Js.includes]; rewrite H; reflexivity. Qed.

Lemma includes_cons c s t : Js.includes s t = true → Js.includes (String c s) t = true.
Proof. intros H. cbn [Js.includes]. rewrite H. apply orb_true_r. Qed.

(** A path with a [..] segment has [..] as a substring, so the test
    [includes('..')] of [file.js] catches it. *)
Lemma parent_segment_included p :
  In ".." (Path.split p) → Js.includes p ".." = true.
Proof.
  induction p as [|c p IH].
  - intros [H|[]]. discriminate H.
  - rewrite split_cons. destruct (Ascii.eqb c "/") eqn:Ec.
    + intros [H|H]; [discriminate H|]. by apply includes_cons, IH.
    + destruct (Path.split p) as [|seg rest] eqn:E.
      { by destruct (split_not_nil p). }
      intros [H|H].
      * injection H as -> ->. apply includes_prefix.
        pose proof (split_head_prefix p _ _ E) as Hp.
        cbn [Js.startsWith]. rewrite Ascii.eqb_refl. exact Hp.
      * apply includes_cons, IH. by right.
Qed.

Example resolve_relative :
  Path.resolve "/home/u" [Js.VString "/srv/work"; Js.VString "notes/./a.txt"]
  = Some "/srv/work/notes/a.txt".
Proof. reflexivity. Qed.

Example resolve_absolute_argument :
  Path.resolve "/home/u" [Js.VString "/srv/work"; Js.VString "/etc/passwd"]
  = Some "/etc/passwd".
Proof. reflexivity. Qed.

Example resolve_relative_base :
  Path.resolve "/home/u" [Js.VString "work/"; Js.VString "a//b"]
  = Some "/home/u/work/a/b".
Proof. reflexivity. Qed.

Example resolve_parent :
  Path.resolve "/home/u" [Js.VString "/srv/work/../x"] = Some "/srv/x".
Proof. reflexivity. Qed.

Example resolve_null_base :
  Path.resolve "/home/u" [Js.VNull; Js.VString "a.txt"] = None ∧
  Path.resolve "/home/u" [Js.VNull; Js.VString "/a.txt"] = Some "/a.txt".
Proof. by split. Qed.

Example within_below : Path.within "/srv/work" "/srv/work/a/b.txt" = true.
Proof. reflexivity. Qed.

Example within_sibling : Path.within "/srv/work" "/srv/workshop/b.txt" = false.
Proof. reflexivity. Qed.

End PathFacts.

(** ** Facts about the effect monad *)

Module RtFacts.
Import Rt Props.

Lemma run_bind {A B} (m : M A) (k : A → M B) w :
  (m ≫= k) w =
  match m w with
  | (Ret a, w') => k a w'
  | (Throw e, w') => (Throw e, w')
  | (Await, w') => (Await, w')
  end.
Proof. reflexivity. Qed.

Section Emits.
Context {A : Type} (P : Event → bool).

Lemma emits_nothing (m : M A) :
  (∀ w, trace (m w).2 = trace w) → emits P m.
Proof. intros H w. exists []. rewrite H, app_nil_r. by split. Qed.

Lemma emits_ret (a : A) : emits P (mret a).
Proof. by apply emits_nothing. Qed.

Lemma emits_throw e : emits P (throw e : M A).
Proof. by apply emits_nothing. Qed.

Lemma emits_await : emits P (await : M A).
Proof. by apply emits_nothing. Qed.

Lemma emits_call (e : Event) (answer : list Event → A) :
  P e = true → emits P (call e answer).
Proof. intros H w. exists [e]. split; [done|]. by constructor. Qed.

Lemma emits_try_catch (m : M A) handler :
  emits P m → (∀ e, emits P (handler e)) → emits P (try_catch m handler).
Proof.
  intros Hm Hh w. unfold try_catch.
  destruct (Hm w) as (evs & E & F).
  destruct (m w) as [[a|e|] w1]; simpl in *; eauto.
  destruct (Hh e w1) as (evs' & E' & F').
  exists (evs ++ evs'). split; [by rewrite E', E, app_assoc|].
  by apply Forall_app.
Qed.

Lemma emits_while_true (rounds : nat → M A) :
  (∀ n, emits P (rounds n)) → emits P (while_true rounds).
Proof. intros H w. apply H. Qed.

Lemma emits_weaken (Q : Event → bool) (m : M A) :
  (∀ e, Q e = true → P e = true) → emits Q m → emits P m.
Proof.
  intros HQ Hm w. destruct (Hm w) as (evs & E & F).
  exists evs. split; [done|]. eapply Forall_impl; eauto.
Qed.

End Emits.

Lemma emits_bind {A B} P (m : M A) (k : A → M B) :
  emits P m → (∀ a, emits P (k a)) → emits P (m ≫= k).
Proof.
  intros Hm Hk w. rewrite run_bind.
  destruct (Hm w) as (evs & E & F).
  destruct (m w) as [[a|e|] w1]; simpl in *; eauto.
  destruct (Hk a w1) as (evs' & E' & F').
  exists (evs ++ evs'). split; [by rewrite E', E, app_assoc|].
  by apply Forall_app.
Qed.

Lemma emits_get P : emits P get.
Proof. by apply emits_nothing. Qed.

Lemma emits_emit P e : P e = true → emits P (emit e).
Proof. intros H w. exists [e]. split; [done|]. by constructor. Qed.

Lemma emits_question P prompt : P (Question prompt) = true → emits P (question prompt).
Proof.
  intros H w. exists [Question prompt]. split; [|by constructor].
  unfold question. simpl. by destruct (stdin w).
Qed.

Lemma emits_path_resolve P env paths : emits P (path_resolve env paths).
Proof. unfold path_resolve. destruct (Path.resolve _ _); by apply emits_nothing. Qed.

(** Breaks a goal [emits P m] down along the structure of [m]. *)
Ltac emits_step :=
  lazymatch goal with
  | |- emits _ (_ ≫= _) => apply emits_bind; [|intros]
  | |- emits _ (try_catch _ _) => apply emits_try_catch; [|intros]
  | |- emits _ (mret _) => apply emits_ret
  | |- emits _ (ret _) => apply emits_ret
  | |- emits _ (throw _) => apply emits_throw
  | |- emits _ await => apply emits_await
  | |- emits _ get => apply emits_get
  | |- emits _ (emit _) => apply emits_emit; reflexivity
  | |- emits _ (call _ _) => apply emits_call; reflexivity
  | |- emits _ (question _) => apply emits_question; reflexivity
  | |- emits _ (path_resolve _ _) => apply emits_path_resolve
  | |- emits _ (while_true _) => apply emits_while_true; intros
  | |- emits _ (set_stdin _) => by apply emits_nothing
  | |- emits _ (set_apiKey _) => by apply emits_nothing
  | |- emits _ (set_isFilesModeEnabled _) => by apply emits_nothing
  | |- emits _ (set_filesWorkingDirectory _) => by apply emits_nothing
  | |- emits _ (set_tempFilesWorkingDirectory _) => by apply emits_nothing
  | |- emits _ (set_firstChunk _) => by apply emits_nothing
  | |- emits _ (push _) => by apply emits_nothing
  | |- emits _ (if ?b then _ else _) => destruct b
  | |- emits _ (match ?x with _ => _ end) => destruct x
  | |- emits _ (let x := _ in _) => cbv zeta
  end.

Ltac emits_auto := repeat emits_step.

(** Runs the straight-line head of a computation applied to a world. *)
Ltac run_cbn :=
  cbn [get modify emit push call ret throw await mret M_ret
       set_stdin set_apiKey set_isFilesModeEnabled set_filesWorkingDirectory
       set_tempFilesWorkingDirectory set_firstChunk
       fst snd apiKey isFilesModeEnabled filesWorkingDirectory
       tempFilesWorkingDirectory chatHistory firstChunk trace stdin
       Zeno.explain Zeno.confirmed negb].

Ltac run := repeat (progress (try rewrite run_bind; run_cbn)).

End RtFacts.

(** ** Facts about [trim] and [includes] *)

Module JsFacts.

Lemma app_cons c a b : String c a +:+ b = String c (a +:+ b).
Proof. reflexivity. Qed.

Lemma app_nil_l a : "" +:+ a = a.
Proof. reflexivity. Qed.

Lemma app_nil_r a : a +:+ "" = a.
Proof. induction a as [|c a IH]; [done|]. by rewrite app_cons, IH. Qed.

Lemma app_assoc a b c : a +:+ (b +:+ c) = (a +:+ b) +:+ c.
Proof. induction a as [|x a IH]; [done|]. by rewrite !app_cons, IH. Qed.

Lemma app_eq_nil a b : a +:+ b = "" → a = "" ∧ b = "".
Proof. destruct a; [done|]. rewrite app_cons. discriminate. Qed.

Lemma startsWith_app t y : Js.startsWith (t +:+ y) t = true.
Proof.
  induction t as [|c t IH]; [done|].
  rewrite app_cons. cbn [Js.startsWith]. by rewrite Ascii.eqb_refl, IH.
Qed.

Lemma includes_nil s : Js.includes s "" = true.
Proof. by destruct s. Qed.

Lemma includes_app x t y : Js.includes (x +:+ t +:+ y) t = true.
Proof.
  induction x as [|c x IH].
  - rewrite app_nil_l. apply PathFacts.includes_prefix, startsWith_app.
  - rewrite app_cons. by apply PathFacts.includes_cons.
Qed.

Lemma trimEnd_cons c s :
  Js.trimEnd (String c s) =
  match Js.trimEnd s with
  | "" => if Js.is_ws c then "" else String c ""
  | t => String c t
  end.
Proof. reflexivity. Qed.

Lemma trimEnd_app a b :
  Js.trimEnd (a +:+ b) =
  if String.eqb (Js.trimEnd b) "" then Js.trimEnd a else a +:+ Js.trimEnd b.
Proof.
  induction a as [|c a IH].
  - rewrite !app_nil_l. by destruct (Js.trimEnd b).
  - rewrite !app_cons, !trimEnd_cons, IH.
    destruct (String.eqb_spec (Js.trimEnd b) "") as [E|E]; [done|].
    destruct (a +:+ Js.trimEnd b) eqn:E'; [|done].
    by destruct (app_eq_nil _ _ E').
Qed.

(** [trimEnd] only cuts at the end. *)
Lemma trimEnd_prefix t : ∃ z, t = Js.trimEnd t +:+ z.
Proof.
  induction t as [|c t [z IH]]; [by exists ""|].
  rewrite trimEnd_cons. destruct (Js.trimEnd t) eqn:E.
  - destruct (Js.is_ws c).
    + by exists (String c t).
    + exists t. done.
  - exists z. rewrite app_cons. by rewrite <- IH.
Qed.

(** A text inside a string is still there, up to its own trailing white
    space, once the string has lost its trailing white space. *)
Lemma includes_trimEnd x t y :
  Js.includes (Js.trimEnd (x +:+ t +:+ y)) (Js.trimEnd t) = true.
Proof.
  destruct (trimEnd_prefix t) as [z Hz].
  rewrite (trimEnd_app x), (trimEnd_app t).
  destruct (String.eqb_spec (Js.trimEnd y) "") as [Ey|Ey].
  - destruct (String.eqb_spec (Js.trimEnd t) "") as [Et|Et].
    + rewrite Et. apply includes_nil.
    + rewrite <- (app_nil_r (Js.trimEnd t)) at 1. apply includes_app.
  - destruct (String.eqb_spec (t +:+ Js.trimEnd y) "") as [E|E].
    + by destruct (app_eq_nil _ _ E).
    + rewrite Hz at 1. rewrite <- (app_assoc (Js.trimEnd t)). apply includes_app.
Qed.

End JsFacts.

(** ** Facts about [file.js] *)

Module FileOpsFacts.
Import Rt Props RtFacts.

Lemma emits_execPromise env command cwd :
  emits notQuestion (FileOps.execPromise env command cwd).
Proof. unfold FileOps.execPromise. emits_auto. Qed.

Lemma emits_createNewFile env basePath relativeFilePath fileContent :
  emits notQuestion (FileOps.createNewFile env basePath relativeFilePath fileContent).
Proof. unfold FileOps.createNewFile. emits_auto. Qed.

Lemma emits_runShellCommand env basePath commandToRun :
  emits notQuestion (FileOps.runShellCommand env basePath commandToRun).
Proof.
  unfold FileOps.runShellCommand. emits_auto.
  apply emits_execPromise.
Qed.

Lemma emits_renameFile env basePath relativeOldPath relativeNewPath :
  emits notQuestion (FileOps.renameFile env basePath relativeOldPath relativeNewPath).
Proof. unfold FileOps.renameFile. emits_auto. Qed.

(** The validation of one path argument, as [file.js] writes it. *)
Lemma invalidPath_caught v :
  invalidPath v →
  negb (Js.truthy v) || negb (Js.is_string v) || Js.includes (Js.str v) ".." = true.
Proof.
  intros [H|[->|(p & -> & H)]].
  - rewrite H. cbn [negb]. by rewrite orb_true_r.
  - reflexivity.
  - simpl. rewrite (PathFacts.parent_segment_included p H). apply orb_true_r.
Qed.

(** The prefix test of [file.js] does refuse what fails it: when the
    resolved path does not start with the text of the resolved directory,
    nothing is written. *)
Lemma createNewFile_prefix_guard env basePath p fileContent absolute base w :
  p ≠ "" → Js.includes p ".." = false →
  Path.resolve (cwd env) [basePath; Js.VString p] = Some absolute →
  Path.resolve (cwd env) [basePath] = Some base →
  Js.startsWith absolute base = false →
  FileOps.createNewFile env basePath (Js.VString p) fileContent w =
  (Ret "Error: File path is outside the allowed working directory for new_file.", w).
Proof.
  intros Hp Hi Ha Hb Hs. unfold FileOps.createNewFile.
  cbn [Js.truthy Js.is_string Js.str negb orb].
  destruct (String.eqb_spec p "") as [|_]; [done|]. cbn [negb orb].
  rewrite Hi. unfold path_resolve. rewrite run_bind, Ha. cbn [ret].
  rewrite run_bind, Hb. cbn [ret]. by rewrite Hs.
Qed.

End FileOpsFacts.

Module FileOpsClaims.
Import Rt Props RtFacts.

Lemma trim_heading c h x :
  Js.is_ws c = false → Js.trim (String c h +:+ x) = Js.trimEnd (String c h +:+ x).
Proof.
  intros H. unfold Js.trim. rewrite JsFacts.app_cons.
  cbn [Js.trimStart]. by rewrite H.
Qed.

Lemma eqb_heading c h x : (String c h +:+ x =? "") = false.
Proof. reflexivity. Qed.

(** Looks for the text [t] of a goal [includes (trimEnd (... t ...)) (trimEnd t)]
    among the pieces of the concatenation. *)
Ltac find_text :=
  first [ apply JsFacts.includes_trimEnd
        | rewrite (JsFacts.app_assoc _ _ (_ +:+ _)); find_text ].

Ltac case_empty :=
  repeat match goal with
         | |- context [String.eqb ?x ""] => is_var x; destruct (String.eqb_spec x "")
         end.

(** What [runShellCommand] returns for a command that is a non-empty string,
    by what [exec] does with it. *)
Lemma runShellCommand_runs env basePath c w :
  c ≠ "" →
  match exec env (trace w ++ [ConsoleLog ("Executing command in " +:+
                    to_string env basePath +:+ ": " +:+ c)]) c basePath with
  | ExecThrows m =>
      (FileOps.runShellCommand env basePath (Js.VString c) w).1 =
      Ret ("Error executing command " +:+ Js.dq +:+ c +:+ Js.dq +:+ ": " +:+ m)
  | ExecDone error stdout stderr =>
      (FileOps.runShellCommand env basePath (Js.VString c) w).1 =
      Ret (Js.trim (if String.eqb (composed error stdout stderr) "" then Props.noOutput
                    else composed error stdout stderr))
  end.
Proof.
  intros Hc. unfold FileOps.runShellCommand.
  cbn [Js.truthy Js.is_string Js.str negb orb].
  destruct (String.eqb_spec c "") as [|_]; [done|]. cbn [negb orb].
  unfold try_catch, FileOps.execPromise, mbind, M_bind, bind, call, emit, modify.
  cbn [fst snd trace].
  destruct (exec env _ c basePath) as [m|[message|] stdout stderr];
    cbn [throw mret M_ret ret fst FileOps.success FileOps.stdout FileOps.stderr FileOps.error];
    [reflexivity|..]; unfold composed, section, noOutput;
    case_empty; cbn [negb]; subst;
    rewrite ?JsFacts.app_nil_l, <- ?JsFacts.app_assoc; reflexivity.
Qed.

(** The outcome holds each text that came, up to trailing white space. *)
Lemma composed_holds error stdout stderr :
  let outcome := Js.trim (if String.eqb (composed error stdout stderr) "" then Props.noOutput
                          else composed error stdout stderr) in
  Js.includes outcome (Js.trimEnd stdout) = true ∧
  Js.includes outcome
    (Js.trimEnd (match error with
                 | Some message => if String.eqb stderr "" then message else stderr
                 | None => stderr
                 end)) = true ∧
  (∀ message, error = Some message →
     Js.includes outcome (Js.trimEnd message) = true).
Proof.
  cbv zeta. unfold composed, section.
  destruct error as [message|]; case_empty; subst;
    rewrite ?JsFacts.app_nil_l, ?JsFacts.app_nil_r, <- ?JsFacts.app_assoc;
    rewrite ?eqb_heading; cbn [String.eqb];
    (split; [|split]); try (intros ? [= <-]); try discriminate;
    try apply JsFacts.includes_nil;
    try (rewrite trim_heading by reflexivity; find_text).
Qed.

(** C2: a path argument that is not a string, is empty, or holds a
    parent-directory segment makes [createNewFile] and [renameFile] return
    their validation error with the world as it was: no event at all, hence
    no write and no rename.  For [renameFile] this holds whichever of its two
    paths is the refused one, whatever the other. *)
Theorem invalid_path_refused_without_mutation
    env basePath (v other fileContent : Js.Value) w :
  invalidPath v →
  FileOps.createNewFile env basePath v fileContent w =
    (Ret "Error: Invalid or potentially unsafe file path for new_file.", w) ∧
  FileOps.renameFile env basePath v other w =
    (Ret "Error: Invalid or potentially unsafe file paths for modify_file (rename).", w) ∧
  FileOps.renameFile env basePath other v w =
    (Ret "Error: Invalid or potentially unsafe file paths for modify_file (rename).", w).
Proof.
  intros H. apply FileOpsFacts.invalidPath_caught in H.
  unfold FileOps.createNewFile, FileOps.renameFile. repeat split.
  - by rewrite H.
  - by rewrite H.
  - rewrite <- !orb_assoc in *. rewrite H. by rewrite !orb_true_r.
Qed.

Lemma invalid_path_refused_witness :
  FileOps.createNewFile Sample.env0 (Js.VString "/srv/work")
    (Js.VString "../etc/passwd") (Js.VString "x") (Sample.persisted []) =
    (Ret "Error: Invalid or potentially unsafe file path for new_file.",
     Sample.persisted []) ∧
  FileOps.renameFile Sample.env0 (Js.VString "/srv/work")
    (Js.VString "../etc/passwd") (Js.VString "a.txt") (Sample.persisted []) =
    (Ret "Error: Invalid or potentially unsafe file paths for modify_file (rename).",
     Sample.persisted []) ∧
  FileOps.renameFile Sample.env0 (Js.VString "/srv/work")
    (Js.VString "a.txt") (Js.VString "../etc/passwd") (Sample.persisted []) =
    (Ret "Error: Invalid or potentially unsafe file paths for modify_file (rename).",
     Sample.persisted []).
Proof.
  apply (invalid_path_refused_without_mutation Sample.env0 (Js.VString "/srv/work")
           (Js.VString "../etc/passwd") (Js.VString "a.txt") (Js.VString "x")
           (Sample.persisted [])).
  right; right. exists "../etc/passwd". split; [reflexivity|]. simpl. by left.
Defined.

(** C1, at the input where the code departs from it: with the working
    directory [/srv/work], the absolute argument [/srv/work-old/x.txt] resolves
    to a path that is not within the directory, yet its text starts with the
    text of the directory, so [createNewFile] writes the file and [renameFile]
    moves a file there. *)
Theorem sibling_directory_passes_prefix_check :
  Path.resolve (cwd Sample.env0) [Js.VString "/srv/work"; Js.VString "/srv/work-old/x.txt"]
    = Some "/srv/work-old/x.txt" ∧
  Path.resolve (cwd Sample.env0) [Js.VString "/srv/work"] = Some "/srv/work" ∧
  Path.within "/srv/work" "/srv/work-old/x.txt" = false ∧
  trace (FileOps.createNewFile Sample.env0 (Js.VString "/srv/work")
           (Js.VString "/srv/work-old/x.txt") (Js.VString "hi")
           (Sample.persisted [])).2
    = [FsWriteFile "/srv/work-old/x.txt" (Js.VString "hi")] ∧
  (FileOps.createNewFile Sample.env0 (Js.VString "/srv/work")
     (Js.VString "/srv/work-old/x.txt") (Js.VString "hi") (Sample.persisted [])).1
    = Ret ("File " +:+ Js.dq +:+ "/srv/work-old/x.txt" +:+ Js.dq +:+
           " created successfully in /srv/work.") ∧
  trace (FileOps.renameFile Sample.env0 (Js.VString "/srv/work")
           (Js.VString "a.txt") (Js.VString "/srv/work-old/x.txt")
           (Sample.persisted [])).2
    = [FsRename "/srv/work/a.txt" "/srv/work-old/x.txt"].
Proof. vm_compute. repeat split. Qed.



End FileOpsClaims.

(** ** Facts about the confirmation prompts of [zeno.js] *)

Module PromptFacts.
Import Rt Props RtFacts.

Lemma run_question prompt w line rest :
  stdin w = line :: rest →
  question prompt w =
  (Ret line, mkWorld (apiKey w) (isFilesModeEnabled w) (filesWorkingDirectory w)
               (tempFilesWorkingDirectory w) (chatHistory w) (firstChunk w)
               (trace w ++ [Question prompt]) rest).
Proof. intros H. unfold question. simpl. by rewrite H. Qed.

Lemma run_question_nil prompt w :
  stdin w = [] →
  question prompt w =
  (Await, mkWorld (apiKey w) (isFilesModeEnabled w) (filesWorkingDirectory w)
            (tempFilesWorkingDirectory w) (chatHistory w) (firstChunk w)
            (trace w ++ [Question prompt]) []).
Proof. intros H. unfold question. simpl. by rewrite H. Qed.

Lemma frame_refl w : frame w w.
Proof. by repeat split. Qed.

Lemma frame_trans w1 w2 w3 : frame w1 w2 → frame w2 w3 → frame w1 w3.
Proof.
  unfold frame. intros (?&?&?&?&?&?) (?&?&?&?&?&?). repeat split; congruence.
Qed.

(** Any run of answers is either refused as a whole or splits at its first
    accepted answer. *)
Lemma split_first_valid (valid : string → bool) (l : list string) :
  Forall (λ x, valid x = false) l ∨
  ∃ bad c rest, l = bad ++ c :: rest ∧
                Forall (λ x, valid x = false) bad ∧ valid c = true.
Proof.
  induction l as [|x l IH]; [by left|].
  destruct (valid x) eqn:E.
  - right. exists [], x, l. by repeat split.
  - destruct IH as [IH|(bad & c & rest & -> & Hbad & Hc)].
    + left. by constructor.
    + right. exists (x :: bad), c, rest. repeat split; [|done]. by constructor.
Qed.

Lemma validInitial_cases c :
  validInitial c = true → c = "1" ∨ c = "2" ∨ c = "3".
Proof.
  unfold validInitial. intros H.
  destruct (String.eqb_spec c "1"); [by left|].
  destruct (String.eqb_spec c "2"); [by right; left|].
  destruct (String.eqb_spec c "3"); [by right; right|]. done.
Qed.

Lemma validAfter_cases c : validAfter c = true → c = "1" ∨ c = "2".
Proof.
  unfold validAfter. intros H.
  destruct (String.eqb_spec c "1"); [by left|].
  destruct (String.eqb_spec c "2"); [by right|]. done.
Qed.

Lemma Forall_reprompts (P : Event → bool) prompt complaint bad :
  P (Question prompt) = true → P (ConsoleLog complaint) = true →
  Forall (λ e, P e = true) (reprompts prompt complaint bad).
Proof.
  intros HQ HC. unfold reprompts.
  induction bad as [|b bad IH]; cbn [flat_map]; [constructor|].
  by repeat constructor.
Qed.


(** One refused answer at the first prompt: the complaint is shown and the
    loop is where it was, one line further. *)
Lemma confirmLoop_refuses n w c rest :
  stdin w = c :: rest → validInitial c = false →
  Zeno.confirmLoop (S n) w =
  Zeno.confirmLoop n
    (mkWorld (apiKey w) (isFilesModeEnabled w) (filesWorkingDirectory w)
       (tempFilesWorkingDirectory w) (chatHistory w) (firstChunk w)
       (trace w ++ [Question Zeno.confirmPrompt; ConsoleLog invalidInitialMessage])
       rest).
Proof.
  intros Hw Hc. cbn [Zeno.confirmLoop]. rewrite run_bind, (run_question _ _ _ _ Hw).
  unfold validInitial in Hc.
  apply orb_false_elim in Hc as [Hc H3]. apply orb_false_elim in Hc as [H1 H2].
  rewrite H1, H2, H3. rewrite run_bind. unfold emit, modify. cbn.
  by rewrite <- app_assoc.
Qed.

Lemma reconfirmLoop_refuses n w c rest :
  stdin w = c :: rest → validAfter c = false →
  Zeno.reconfirmLoop (S n) w =
  Zeno.reconfirmLoop n
    (mkWorld (apiKey w) (isFilesModeEnabled w) (filesWorkingDirectory w)
       (tempFilesWorkingDirectory w) (chatHistory w) (firstChunk w)
       (trace w ++ [Question Zeno.reconfirmPrompt; ConsoleLog invalidAfterMessage])
       rest).
Proof.
  intros Hw Hc. cbn [Zeno.reconfirmLoop]. rewrite run_bind, (run_question _ _ _ _ Hw).
  unfold validAfter in Hc. apply orb_false_elim in Hc as [H1 H2].
  rewrite H1, H2. rewrite run_bind. unfold emit, modify. cbn.
  by rewrite <- app_assoc.
Qed.

Lemma confirmLoop_resolves bad : ∀ c rest n w,
  Forall (λ x, validInitial x = false) bad → validInitial c = true →
  stdin w = bad ++ c :: rest → length bad < n →
  ∃ w', Zeno.confirmLoop n w = (Ret (initialDecision c), w') ∧
        trace w' = trace w ++ reprompts Zeno.confirmPrompt invalidInitialMessage bad
                           ++ [Question Zeno.confirmPrompt] ∧
        stdin w' = rest ∧ frame w w'.
Proof.
  induction bad as [|b bad IH]; intros c rest n w Hbad Hc Hw Hn.
  - destruct n as [|n]; [simpl in Hn; lia|].
    cbn [Zeno.confirmLoop]. rewrite run_bind, (run_question _ _ _ _ Hw).
    destruct (validInitial_cases c Hc) as [->|[->| ->]];
      (eexists; split; [reflexivity|]; split; [done|]; split; [done|];
       by repeat split).
  - destruct n as [|n]; [simpl in Hn; lia|].
    inversion Hbad as [|? ? Hb Hbad']; subst.
    rewrite (confirmLoop_refuses n w b (bad ++ c :: rest) Hw Hb).
    assert (Hn' : length bad < n) by (simpl in Hn; lia).
    match goal with
    | |- context [_ n ?w0] =>
        destruct (IH c rest n w0 Hbad' Hc eq_refl Hn') as (w' & Hrun & Htr & Hin & Hfr)
    end.
    exists w'. split; [exact Hrun|]. split; [|split; [exact Hin|exact Hfr]].
    rewrite Htr. cbn [trace reprompts flat_map]. by rewrite <- !app_assoc.
Qed.

Lemma confirmLoop_awaits : ∀ lines n w,
  Forall (λ x, validInitial x = false) lines →
  stdin w = lines → length lines < n →
  ∃ w', Zeno.confirmLoop n w = (Await, w') ∧
        trace w' = trace w ++ reprompts Zeno.confirmPrompt invalidInitialMessage lines
                           ++ [Question Zeno.confirmPrompt] ∧
        stdin w' = [].
Proof.
  induction lines as [|b bad IH]; intros n w Hbad Hw Hn.
  - destruct n as [|n]; [simpl in Hn; lia|].
    cbn [Zeno.confirmLoop]. rewrite run_bind, (run_question_nil _ _ Hw).
    eexists. by repeat split.
  - destruct n as [|n]; [simpl in Hn; lia|].
    inversion Hbad as [|? ? Hb Hbad']; subst.
    rewrite (confirmLoop_refuses n w b bad Hw Hb).
    assert (Hn' : length bad < n) by (simpl in Hn; lia).
    match goal with
    | |- context [_ n ?w0] =>
        destruct (IH n w0 Hbad' eq_refl Hn') as (w' & Hrun & Htr & Hin)
    end.
    exists w'. split; [exact Hrun|]. split; [|exact Hin].
    rewrite Htr. cbn [trace reprompts flat_map]. by rewrite <- !app_assoc.
Qed.

Lemma reconfirmLoop_resolves bad : ∀ c rest n w,
  Forall (λ x, validAfter x = false) bad → validAfter c = true →
  stdin w = bad ++ c :: rest → length bad < n →
  ∃ w', Zeno.reconfirmLoop n w = (Ret (String.eqb c "1"), w') ∧
        trace w' = trace w ++ reprompts Zeno.reconfirmPrompt invalidAfterMessage bad
                           ++ [Question Zeno.reconfirmPrompt] ∧
        stdin w' = rest ∧ frame w w'.
Proof.
  induction bad as [|b bad IH]; intros c rest n w Hbad Hc Hw Hn.
  - destruct n as [|n]; [simpl in Hn; lia|].
    cbn [Zeno.reconfirmLoop]. rewrite run_bind, (run_question _ _ _ _ Hw).
    destruct (validAfter_cases c Hc) as [->| ->];
      (eexists; split; [reflexivity|]; split; [done|]; split; [done|];
       by repeat split).
  - destruct n as [|n]; [simpl in Hn; lia|].
    inversion Hbad as [|? ? Hb Hbad']; subst.
    rewrite (reconfirmLoop_refuses n w b (bad ++ c :: rest) Hw Hb).
    assert (Hn' : length bad < n) by (simpl in Hn; lia).
    match goal with
    | |- context [_ n ?w0] =>
        destruct (IH c rest n w0 Hbad' Hc eq_refl Hn') as (w' & Hrun & Htr & Hin & Hfr)
    end.
    exists w'. split; [exact Hrun|]. split; [|split; [exact Hin|exact Hfr]].
    rewrite Htr. cbn [trace reprompts flat_map]. by rewrite <- !app_assoc.
Qed.

Lemma reconfirmLoop_awaits : ∀ lines n w,
  Forall (λ x, validAfter x = false) lines →
  stdin w = lines → length lines < n →
  ∃ w', Zeno.reconfirmLoop n w = (Await, w') ∧
        trace w' = trace w ++ reprompts Zeno.reconfirmPrompt invalidAfterMessage lines
                           ++ [Question Zeno.reconfirmPrompt] ∧
        stdin w' = [].
Proof.
  induction lines as [|b bad IH]; intros n w Hbad Hw Hn.
  - destruct n as [|n]; [simpl in Hn; lia|].
    cbn [Zeno.reconfirmLoop]. rewrite run_bind, (run_question_nil _ _ Hw).
    eexists. by repeat split.
  - destruct n as [|n]; [simpl in Hn; lia|].
    inversion Hbad as [|? ? Hb Hbad']; subst.
    rewrite (reconfirmLoop_refuses n w b bad Hw Hb).
    assert (Hn' : length bad < n) by (simpl in Hn; lia).
    match goal with
    | |- context [_ n ?w0] =>
        destruct (IH n w0 Hbad' eq_refl Hn') as (w' & Hrun & Htr & Hin)
    end.
    exists w'. split; [exact Hrun|]. split; [|exact Hin].
    rewrite Htr. cbn [trace reprompts flat_map]. by rewrite <- !app_assoc.
Qed.

End PromptFacts.

Module PromptClaims.
Import Rt Props RtFacts PromptFacts.

(** C8: whatever the user types, the first prompt resolves only at the first
    line that is [1], [2] or [3], and the prompt after an explanation only at
    the first line that is [1] or [2]; every line before it gets the complaint
    and the same prompt again.  With no such line the prompt never resolves:
    it has asked once more and waits.  It never throws.  [3] is no answer to
    the second prompt. *)
Theorem prompts_resolve_only_on_valid_input (w : World) :
  (∀ d w', while_true Zeno.confirmLoop w = (Ret d, w') →
     ∃ bad c, stdin w = bad ++ c :: stdin w' ∧
       Forall (λ x, validInitial x = false) bad ∧ validInitial c = true ∧
       d = initialDecision c ∧
       trace w' = trace w ++ reprompts Zeno.confirmPrompt invalidInitialMessage bad
                          ++ [Question Zeno.confirmPrompt]) ∧
  (∀ bad c rest, stdin w = bad ++ c :: rest →
     Forall (λ x, validInitial x = false) bad → validInitial c = true →
     ∃ w', while_true Zeno.confirmLoop w = (Ret (initialDecision c), w') ∧
           stdin w' = rest) ∧
  (Forall (λ x, validInitial x = false) (stdin w) →
     ∃ w', while_true Zeno.confirmLoop w = (Await, w') ∧
       trace w' = trace w ++ reprompts Zeno.confirmPrompt invalidInitialMessage (stdin w)
                          ++ [Question Zeno.confirmPrompt]) ∧
  (∀ m w', while_true Zeno.confirmLoop w ≠ (Throw m, w')) ∧
  (∀ b w', while_true Zeno.reconfirmLoop w = (Ret b, w') →
     ∃ bad c, stdin w = bad ++ c :: stdin w' ∧
       Forall (λ x, validAfter x = false) bad ∧ validAfter c = true ∧
       b = String.eqb c "1" ∧
       trace w' = trace w ++ reprompts Zeno.reconfirmPrompt invalidAfterMessage bad
                          ++ [Question Zeno.reconfirmPrompt]) ∧
  (∀ bad c rest, stdin w = bad ++ c :: rest →
     Forall (λ x, validAfter x = false) bad → validAfter c = true →
     ∃ w', while_true Zeno.reconfirmLoop w = (Ret (String.eqb c "1"), w') ∧
           stdin w' = rest) ∧
  (Forall (λ x, validAfter x = false) (stdin w) →
     ∃ w', while_true Zeno.reconfirmLoop w = (Await, w') ∧
       trace w' = trace w ++ reprompts Zeno.reconfirmPrompt invalidAfterMessage (stdin w)
                          ++ [Question Zeno.reconfirmPrompt]) ∧
  (∀ m w', while_true Zeno.reconfirmLoop w ≠ (Throw m, w')) ∧
  validAfter "3" = false.
Proof.
  unfold while_true.
  assert (Hlen : ∀ (bad : list string) c rest,
            stdin w = bad ++ c :: rest → length bad < S (length (stdin w))).
  { intros bad c rest ->. rewrite length_app. lia. }
  assert (Hlt : length (stdin w) < S (length (stdin w))) by lia.
  repeat apply conj.
  - intros d w' Hrun.
    destruct (split_first_valid validInitial (stdin w))
      as [Hall|(bad & c & rest & Hw & Hbad & Hc)].
    + destruct (confirmLoop_awaits _ _ w Hall eq_refl Hlt) as (w1 & H1 & _).
      congruence.
    + destruct (confirmLoop_resolves bad c rest _ w Hbad Hc Hw (Hlen _ _ _ Hw))
        as (w1 & H1 & Htr & Hin & _).
      rewrite H1 in Hrun. injection Hrun as <- <-.
      exists bad, c. by rewrite Hin.
  - intros bad c rest Hw Hbad Hc.
    destruct (confirmLoop_resolves bad c rest _ w Hbad Hc Hw (Hlen _ _ _ Hw))
      as (w1 & H1 & _ & Hin & _).
    by exists w1.
  - intros Hall.
    destruct (confirmLoop_awaits _ _ w Hall eq_refl Hlt) as (w1 & H1 & Htr & _).
    by exists w1.
  - intros m w' Hrun.
    destruct (split_first_valid validInitial (stdin w))
      as [Hall|(bad & c & rest & Hw & Hbad & Hc)].
    + destruct (confirmLoop_awaits _ _ w Hall eq_refl Hlt) as (w1 & H1 & _).
      congruence.
    + destruct (confirmLoop_resolves bad c rest _ w Hbad Hc Hw (Hlen _ _ _ Hw))
        as (w1 & H1 & _).
      congruence.
  - intros d w' Hrun.
    destruct (split_first_valid validAfter (stdin w))
      as [Hall|(bad & c & rest & Hw & Hbad & Hc)].
    + destruct (reconfirmLoop_awaits _ _ w Hall eq_refl Hlt) as (w1 & H1 & _).
      congruence.
    + destruct (reconfirmLoop_resolves bad c rest _ w Hbad Hc Hw (Hlen _ _ _ Hw))
        as (w1 & H1 & Htr & Hin & _).
      rewrite H1 in Hrun. injection Hrun as <- <-.
      exists bad, c. by rewrite Hin.
  - intros bad c rest Hw Hbad Hc.
    destruct (reconfirmLoop_resolves bad c rest _ w Hbad Hc Hw (Hlen _ _ _ Hw))
      as (w1 & H1 & _ & Hin & _).
    by exists w1.
  - intros Hall.
    destruct (reconfirmLoop_awaits _ _ w Hall eq_refl Hlt) as (w1 & H1 & Htr & _).
    by exists w1.
  - intros m w' Hrun.
    destruct (split_first_valid validAfter (stdin w))
      as [Hall|(bad & c & rest & Hw & Hbad & Hc)].
    + destruct (reconfirmLoop_awaits _ _ w Hall eq_refl Hlt) as (w1 & H1 & _).
      congruence.
    + destruct (reconfirmLoop_resolves bad c rest _ w Hbad Hc Hw (Hlen _ _ _ Hw))
        as (w1 & H1 & _).
      congruence.
  - reflexivity.
Qed.

Lemma prompts_witness :
  ∃ w', while_true Zeno.confirmLoop (Sample.persisted ["yes"; ""; "3"; "1"]) =
          (Ret (Zeno.mkConfirmation false true), w') ∧
        stdin w' = ["1"].
Proof.
  destruct (prompts_resolve_only_on_valid_input (Sample.persisted ["yes"; ""; "3"; "1"]))
    as (_ & H & _).
  apply (H ["yes"; ""] "3" ["1"]).
  - reflexivity.
  - by repeat constructor.
  - reflexivity.
Defined.

End PromptClaims.

(** ** What the parts of [main] may emit *)

Module ZenoFacts.
Import Rt Props RtFacts.

Lemma to_any {A} P (m : M A) : emits P m → emits anyEvent m.
Proof. by apply emits_weaken. Qed.

Lemma output_notQuestion {A} (m : M A) : emits output m → emits notQuestion m.
Proof. apply emits_weaken. by intros []. Qed.

Lemma output_notExecutor {A} (m : M A) : emits output m → emits notExecutor m.
Proof. apply emits_weaken. by intros []. Qed.

Section WithEnv.
Variable env : Env.

Lemma emits_executeWebSearch term : emits notQuestion (Zeno.executeWebSearch env term).
Proof. unfold Zeno.executeWebSearch. emits_auto. Qed.

Lemma emits_dispatch toolCall dir : emits notQuestion (Zeno.dispatch env toolCall dir).
Proof.
  unfold Zeno.dispatch. emits_auto;
    auto using emits_executeWebSearch, FileOpsFacts.emits_createNewFile,
      FileOpsFacts.emits_runShellCommand, FileOpsFacts.emits_renameFile.
Qed.

Lemma emits_confirmLoop n : emits notExecutor (Zeno.confirmLoop n).
Proof. induction n as [|n IH]; cbn [Zeno.confirmLoop]; emits_auto. exact IH. Qed.

Lemma emits_reconfirmLoop n : emits notExecutor (Zeno.reconfirmLoop n).
Proof. induction n as [|n IH]; cbn [Zeno.reconfirmLoop]; emits_auto. exact IH. Qed.

Lemma emits_handleToolConfirmation toolCall :
  emits notExecutor (Zeno.handleToolConfirmation env toolCall).
Proof.
  unfold Zeno.handleToolConfirmation. emits_auto; apply emits_confirmLoop.
Qed.

Lemma emits_streamExplanation chunks : ∀ text,
  emits output (Zeno.streamExplanation chunks text).
Proof.
  induction chunks as [|chunk chunks IH]; intros text;
    cbn [Zeno.streamExplanation]; emits_auto; apply IH.
Qed.

Lemma emits_streamResponse chunks : ∀ call text,
  emits output (Zeno.streamResponse chunks call text).
Proof.
  induction chunks as [|chunk chunks IH]; intros call text;
    cbn [Zeno.streamResponse]; emits_auto; apply IH.
Qed.

Lemma emits_explainRound toolCall userConfirmation :
  emits notExecutor (Zeno.explainRound env toolCall userConfirmation).
Proof.
  unfold Zeno.explainRound. emits_auto;
    auto using emits_reconfirmLoop, output_notExecutor, emits_streamExplanation.
Qed.

Lemma emits_toolBranch toolCall : emits anyEvent (Zeno.toolBranch env toolCall).
Proof.
  unfold Zeno.toolBranch. emits_auto;
    eauto using to_any, emits_handleToolConfirmation, emits_explainRound, emits_dispatch.
Qed.

Lemma emits_round : emits anyEvent (Zeno.round env).
Proof.
  unfold Zeno.round. emits_auto;
    eauto using to_any, emits_streamResponse, emits_toolBranch.
Qed.

(** A request for [web_search] is handled without a single prompt. *)
Lemma emits_toolBranch_web_search toolCall :
  tc_name toolCall = "web_search" →
  emits notQuestion (Zeno.toolBranch env toolCall).
Proof.
  intros H. unfold Zeno.toolBranch. rewrite H, String.eqb_refl. cbn [negb].
  repeat lazymatch goal with
         | |- emits ?P (mret ?a ≫= ?k) =>
             change (emits P (k a)); cbn beta iota delta [Zeno.explain Zeno.confirmed]
         end.
  emits_auto. apply emits_dispatch.
Qed.

End WithEnv.
End ZenoFacts.

(** ** The handling of an action request *)

Module ToolFacts.
Import Rt Props RtFacts PromptFacts ZenoFacts.

Section WithEnv.
Variable env : Env.

Lemma Forall_presentation toolCall w :
  Forall (λ e, notExecutor e = true) (presentation env toolCall w).
Proof.
  unfold presentation.
  destruct (String.eqb (tc_name toolCall) "run_command"); by repeat constructor.
Qed.

(** For a request that is not a web search, [handleToolConfirmation] shows
    the request, then runs its prompt. *)
Lemma handleToolConfirmation_run toolCall w :
  tc_name toolCall ≠ "web_search" →
  Zeno.handleToolConfirmation env toolCall w =
  while_true Zeno.confirmLoop (after w (presentation env toolCall w)).
Proof.
  intros Hne. unfold Zeno.handleToolConfirmation, presentation, after.
  destruct (String.eqb_spec (tc_name toolCall) "web_search") as [|_]; [done|].
  destruct (String.eqb (tc_name toolCall) "run_command");
    cbn [negb]; run; by rewrite <- !app_assoc.
Qed.

Lemma executeWebSearch_run term w :
  ∃ result w' logs,
    Zeno.executeWebSearch env term w = (Ret result, w') ∧
    stdin w' = stdin w ∧ chatHistory w' = chatHistory w ∧ sameMode w w' ∧
    trace w' = trace w ++
      [StdoutWrite ("Zeno is performing web search for: " +:+ Js.dq +:+
                    to_string env term +:+ Js.dq +:+ "..." +:+ Js.nl);
       HttpsGet (searchUrl env term)] ++ logs ∧
    Forall (λ e, output e = true) logs.
Proof.
  unfold Zeno.executeWebSearch, searchUrl. run.
  destruct (https_get env _ _) as [statusCode data|message].
  - destruct ((200 <=? statusCode)%Z && (statusCode <? 300)%Z).
    + exists data. eexists. exists []. cbn [mret M_ret ret].
      repeat split; cbn; by rewrite <- ?app_assoc.
    + run. eexists. eexists. eexists [_].
      repeat split; cbn; rewrite <- ?app_assoc; [done|]. by repeat constructor.
  - run. eexists. eexists. eexists [_].
    repeat split; cbn; rewrite <- ?app_assoc; [done|]. by repeat constructor.
Qed.

(** The explanation is shown chunk by chunk and its text collected; nothing
    else changes. *)
Lemma streamExplanation_run chunks : ∀ text w,
  ∃ w', Zeno.streamExplanation chunks text w = (Ret (text +:+ streamText chunks), w') ∧
        onlyEmits output w w'.
Proof.
  induction chunks as [|chunk chunks IH]; intros text w; cbn [Zeno.streamExplanation streamText].
  - exists w. rewrite JsFacts.app_nil_r. split; [done|].
    repeat split. exists []. by rewrite app_nil_r.
  - run. destruct (firstChunk w); run.
    all: destruct (String.eqb_spec (chunk_text chunk) "") as [E|E]; cbn [negb]; run.
    all: first [rewrite E, JsFacts.app_nil_l | rewrite JsFacts.app_assoc].
    all: match goal with
         | |- context [Zeno.streamExplanation _ ?t ?w0] =>
             destruct (IH t w0) as (w' & Hrun & Hin & Hh & Hm & evs & Htr & Hev)
         end.
    all: exists w'; split; [exact Hrun|]; split; [exact Hin|]; split; [exact Hh|];
         split; [exact Hm|]; cbn [trace] in Htr; rewrite <- ?app_assoc in Htr;
         eexists; split; [exact Htr|]; repeat constructor; exact Hev.
Qed.

(** The explanation round, for a model that answers and a user who then
    types refused lines [bad] and the accepted line [c]. *)
Lemma explainRound_run toolCall userConfirmation w bad c rest chunks call reason ratings :
  stdin w = bad ++ c :: rest →
  Forall (λ x, validAfter x = false) bad → validAfter c = true →
  sendMessageStream env (trace w ++ [typingExplanation]) =
    StreamOk chunks call reason ratings →
  ∃ w', Zeno.explainRound env toolCall userConfirmation w =
          (Ret (Zeno.mkConfirmation (String.eqb c "1") (Zeno.explain userConfirmation)), w') ∧
        chatHistory w' = chatHistory w ++
          [requestTurn toolCall; explanationAsked toolCall;
           mkTurn "model" [PText (streamText chunks)]] ∧
        stdin w' = rest ∧ sameMode w w' ∧
        ∃ evs, trace w' = trace w ++ evs ∧ Forall (λ e, notExecutor e = true) evs.
Proof.
  intros Hw Hbad Hc Hmodel. unfold Zeno.explainRound. run.
  unfold typingExplanation in Hmodel. rewrite Hmodel. run.
  match goal with
  | |- context [Zeno.streamExplanation _ ?t ?w0] =>
      destruct (streamExplanation_run chunks t w0)
        as (w1 & Hrun & Hin & Hh & (Hk & He & Hf & Ht) & evs & Htr & Hev)
  end.
  rewrite Hrun. run. cbn in Hin, Hh, Hk, He, Hf, Ht, Htr.
  assert (Hnl : ∃ w2, ((if negb (firstChunk w1) then emit (StdoutWrite Js.nl) else mret ()) w1)
                      = (Ret (), w2) ∧ frame w1 w2 ∧ stdin w2 = stdin w1 ∧
                      ∃ evs2, trace w2 = trace w1 ++ evs2 ∧
                              Forall (λ e, notExecutor e = true) evs2).
  { destruct (firstChunk w1); cbn [negb]; eexists; (split; [reflexivity|]);
      (split; [by repeat split|]); (split; [done|]).
    - exists []. by rewrite app_nil_r.
    - exists [StdoutWrite Js.nl]. split; [done|]. by repeat constructor. }
  destruct Hnl as (w2 & Hrun2 & (Hk2 & He2 & Hf2 & Ht2 & Hh2 & _) & Hin2 & evs2 & Htr2 & Hev2).
  rewrite Hrun2. run. unfold while_true.
  match goal with
  | |- context [Zeno.reconfirmLoop ?n ?w0] =>
      destruct (reconfirmLoop_resolves bad c rest n w0 Hbad Hc)
        as (w3 & Hrun3 & Htr3 & Hin3 & (Hk3 & He3 & Hf3 & Ht3 & Hh3 & _))
  end.
  { cbn [stdin]. congruence. }
  { cbn [stdin]. rewrite Hin2, Hin, Hw, length_app. lia. }
  rewrite Hrun3. run. cbn in Htr3, Hk3, He3, Hf3, Ht3, Hh3.
  eexists. split; [reflexivity|]. cbn [chatHistory stdin trace].
  split; [|split; [done|split]].
  - rewrite Hh3, Hh2, Hh. by rewrite <- !app_assoc.
  - unfold sameMode. cbn. repeat split; congruence.
  - rewrite Htr3, Htr2, Htr. rewrite <- !app_assoc. eexists. split; [reflexivity|].
    repeat (apply Forall_app; split);
      first [ exact Hev2
            | by apply Forall_reprompts
            | by (eapply Forall_impl; [exact Hev|]; intros [])
            | by repeat constructor ].
Qed.

(** A round of the chat loop starts by sending the model the last turn of
    the transcript. *)
Lemma round_sends_last turn w :
  last (chatHistory w) = Some turn →
  ∃ evs, trace (Zeno.round env w).2 =
         trace w ++ [StdoutWrite "Zeno is typing..."; SendParts (parts turn)] ++ evs.
Proof.
  intros Hlast. unfold Zeno.round. run.
  match goal with
  | |- context [try_catch ?body ?handler ?w0] =>
      set (h := handler); set (w1 := w0);
      assert (Hh : ∀ e, emits anyEvent (h e))
        by (intros; subst h; cbn beta; emits_auto)
  end.
  unfold try_catch. run. subst w1. cbn [chatHistory]. rewrite Hlast. run.
  match goal with
  | |- context [match ?r with StreamThrows _ => _ | _ => _ end ?w0] =>
      set (k := match r with StreamThrows _ => _ | _ => _ end); set (w2 := w0);
      assert (Hk : emits anyEvent k)
        by (subst k; emits_auto;
            eauto using to_any, emits_streamResponse, emits_toolBranch)
  end.
  destruct (emits_try_catch anyEvent k h Hk Hh w2) as (evs & Htr & _).
  unfold try_catch in Htr. exists evs.
  subst w2. cbn [trace] in Htr. rewrite Htr. by rewrite <- !app_assoc.
Qed.

Lemma toolBranch_denied_outright toolCall w bad rest :
  tc_name toolCall ≠ "web_search" →
  stdin w = bad ++ "2" :: rest → Forall (λ x, validInitial x = false) bad →
  ∃ w', Zeno.toolBranch env toolCall w = (Ret true, w') ∧
        chatHistory w' = chatHistory w ++ deniedOutright toolCall ∧
        stdin w' = rest ∧ sameMode w w' ∧
        trace w' = trace w ++ presentation env toolCall w ++
          reprompts Zeno.confirmPrompt invalidInitialMessage bad ++
          [Question Zeno.confirmPrompt; ConsoleLog "Action denied by user."].
Proof.
  intros Hne Hw Hbad. unfold Zeno.toolBranch.
  destruct (String.eqb_spec (tc_name toolCall) "web_search") as [|_]; [done|].
  cbn [negb]. rewrite run_bind, (handleToolConfirmation_run toolCall w Hne).
  unfold while_true.
  match goal with
  | |- context [Zeno.confirmLoop ?n ?w0] =>
      destruct (confirmLoop_resolves bad "2" rest n w0 Hbad eq_refl)
        as (w1 & Hrun & Htr & Hin & (Hk & He & Hf & Ht & Hh & _))
  end.
  { exact Hw. }
  { cbn [after stdin]. rewrite Hw, length_app. lia. }
  rewrite Hrun. change (initialDecision "2") with (Zeno.mkConfirmation false false).
  run. cbn [Zeno.explain Zeno.confirmed]. run.
  cbn [after trace apiKey isFilesModeEnabled filesWorkingDirectory
       tempFilesWorkingDirectory chatHistory] in Htr, Hk, He, Hf, Ht, Hh.
  eexists. split; [reflexivity|]. cbn [chatHistory stdin trace].
  split; [|split; [done|split]].
  - rewrite Hh. by rewrite <- !app_assoc.
  - by repeat split.
  - rewrite Htr. by rewrite <- !app_assoc.
Qed.

Lemma toolBranch_denied_after_explanation
    toolCall w bad bad' rest chunks call reason ratings :
  tc_name toolCall ≠ "web_search" →
  stdin w = bad ++ "3" :: bad' ++ "2" :: rest →
  Forall (λ x, validInitial x = false) bad →
  Forall (λ x, validAfter x = false) bad' →
  sendMessageStream env
    (trace w ++ presentation env toolCall w ++
     reprompts Zeno.confirmPrompt invalidInitialMessage bad ++
     [Question Zeno.confirmPrompt; typingExplanation]) =
    StreamOk chunks call reason ratings →
  ∃ w', Zeno.toolBranch env toolCall w = (Ret true, w') ∧
        chatHistory w' = chatHistory w ++ deniedAfterExplanation toolCall chunks ∧
        stdin w' = rest ∧ sameMode w w' ∧
        ∃ evs, trace w' = trace w ++ evs ∧ Forall (λ e, notExecutor e = true) evs.
Proof.
  intros Hne Hw Hbad Hbad' Hmodel. unfold Zeno.toolBranch.
  destruct (String.eqb_spec (tc_name toolCall) "web_search") as [|_]; [done|].
  cbn [negb]. rewrite run_bind, (handleToolConfirmation_run toolCall w Hne).
  unfold while_true.
  match goal with
  | |- context [Zeno.confirmLoop ?n ?w0] =>
      destruct (confirmLoop_resolves bad "3" (bad' ++ "2" :: rest) n w0 Hbad eq_refl)
        as (w1 & Hrun & Htr & Hin & (Hk & He & Hf & Ht & Hh & _))
  end.
  { exact Hw. }
  { cbn [after stdin]. rewrite Hw, length_app. lia. }
  rewrite Hrun. change (initialDecision "3") with (Zeno.mkConfirmation false true).
  run. cbn [Zeno.explain Zeno.confirmed].
  cbn [after trace apiKey isFilesModeEnabled filesWorkingDirectory
       tempFilesWorkingDirectory chatHistory] in Htr, Hk, He, Hf, Ht, Hh.
  destruct (explainRound_run toolCall (Zeno.mkConfirmation false true) w1
              bad' "2" rest chunks call reason ratings Hin Hbad' eq_refl)
    as (w2 & Hrun2 & Hh2 & Hin2 & (Hk2 & He2 & Hf2 & Ht2) & evs2 & Htr2 & Hev2).
  { rewrite Htr, <- !app_assoc. exact Hmodel. }
  rewrite Hrun2. cbn [String.eqb Ascii.eqb Bool.eqb Zeno.explain Zeno.confirmed]. run.
  eexists. split; [reflexivity|]. cbn [chatHistory stdin trace].
  split; [|split; [done|split]].
  - rewrite Hh2, Hh. unfold deniedAfterExplanation, explanationTurn.
    by rewrite <- !app_assoc.
  - unfold sameMode. cbn. repeat split; congruence.
  - rewrite Htr2, Htr. rewrite <- !app_assoc. eexists. split; [reflexivity|].
    apply Forall_app; split; [apply Forall_presentation|].
    apply Forall_app; split; [by apply Forall_reprompts|].
    apply Forall_app; split; [by repeat constructor|].
    apply Forall_app; split; [exact Hev2|by repeat constructor].
Qed.

Lemma toolBranch_web_search toolCall w :
  tc_name toolCall = "web_search" →
  ∃ result w' logs,
    Zeno.toolBranch env toolCall w = (Ret true, w') ∧
    chatHistory w' = chatHistory w ++
      [requestTurn toolCall; mkTurn "function" [PFunctionResponse "web_search" result]] ∧
    stdin w' = stdin w ∧ sameMode w w' ∧
    trace w' = trace w ++
      [StdoutWrite ("Zeno is performing web search for: " +:+ Js.dq +:+
                    to_string env (arg toolCall "term_to_search") +:+ Js.dq +:+
                    "..." +:+ Js.nl);
       HttpsGet (searchUrl env (arg toolCall "term_to_search"))] ++ logs ∧
    Forall (λ e, output e = true) logs.
Proof.
  intros Hname. unfold Zeno.toolBranch, Zeno.dispatch. rewrite Hname.
  rewrite String.eqb_refl. cbn [negb]. run.
  cbn [Zeno.explain Zeno.confirmed]. run.
  match goal with
  | |- context [Zeno.executeWebSearch env ?t ?w0] =>
      destruct (executeWebSearch_run t w0)
        as (result & w1 & logs & Hrun & Hin & Hh & (Hk & He & Hf & Ht) & Htr & Hlogs)
  end.
  rewrite Hrun. run. cbn in Hin, Hh, Hk, He, Hf, Ht, Htr.
  exists result. eexists. exists logs. split; [reflexivity|].
  cbn [chatHistory stdin trace].
  split; [|split; [done|split; [|split; [done|done]]]].
  - rewrite Hh. by rewrite <- !app_assoc.
  - by repeat split.
Qed.

End WithEnv.
End ToolFacts.

Module ToolClaims.
Import Rt Props RtFacts PromptFacts ZenoFacts ToolFacts.

Lemma occurrences_outright toolCall :
  occurrences (requestTurn toolCall) (deniedOutright toolCall) = 1 ∧
  occurrences (denialTurn toolCall) (deniedOutright toolCall) = 1.
Proof.
  unfold occurrences, deniedOutright, requestTurn, denialTurn.
  split; rewrite !filter_cons, filter_nil; by repeat case_decide.
Qed.

Lemma occurrences_after_explanation toolCall chunks :
  occurrences (requestTurn toolCall) (deniedAfterExplanation toolCall chunks) = 2 ∧
  occurrences (denialTurn toolCall) (deniedAfterExplanation toolCall chunks) = 1.
Proof.
  unfold occurrences, deniedAfterExplanation, requestTurn, denialTurn,
    explanationAsked, explanationTurn.
  split; rewrite !filter_cons, filter_nil; by repeat case_decide.
Qed.

(** C3: a request named [web_search] is carried out at once: the search is
    made, its outcome recorded, and not one question is put to the user.  A
    request of any other name is first shown (its name, its arguments, the
    active working directory) and the question is put, whatever the session
    mode and whatever follows. *)
Theorem only_web_search_skips_confirmation env toolCall w :
  (tc_name toolCall = "web_search" →
     ∃ result w' evs,
       Zeno.toolBranch env toolCall w = (Ret true, w') ∧
       chatHistory w' = chatHistory w ++
         [requestTurn toolCall;
          mkTurn "function" [PFunctionResponse "web_search" result]] ∧
       stdin w' = stdin w ∧
       trace w' = trace w ++ evs ∧
       In (HttpsGet (searchUrl env (arg toolCall "term_to_search"))) evs ∧
       Forall (λ e, notQuestion e = true) evs) ∧
  (tc_name toolCall ≠ "web_search" →
     ∃ evs, trace (Zeno.toolBranch env toolCall w).2 =
            trace w ++ presentation env toolCall w ++
            [Question Zeno.confirmPrompt] ++ evs).
Proof.
  split.
  - intros Hname.
    destruct (toolBranch_web_search env toolCall w Hname)
      as (result & w' & logs & Hrun & Hh & Hin & _ & Htr & Hlogs).
    exists result, w'. eexists. repeat split; [exact Hrun|exact Hh|exact Hin|exact Htr| |].
    + right. by left.
    + repeat constructor. eapply Forall_impl; [exact Hlogs|]. by intros [].
  - intros Hne. unfold Zeno.toolBranch.
    destruct (String.eqb_spec (tc_name toolCall) "web_search") as [|_]; [done|].
    cbn [negb].
    match goal with
    | |- context [(_ ≫= ?k) w] =>
        set (K := k);
        assert (HK : ∀ a, emits anyEvent (K a))
          by (intros; subst K; cbn beta; emits_auto;
              eauto using to_any, emits_explainRound, emits_dispatch)
    end.
    rewrite run_bind, (handleToolConfirmation_run env toolCall w Hne).
    unfold while_true. cbn [Zeno.confirmLoop].
    match goal with
    | |- context [(question _ ≫= ?k) ?w0] =>
        set (Q := k); set (w1 := w0);
        assert (HQ : ∀ a, emits anyEvent (Q a))
          by (intros; subst Q; cbn beta; emits_auto;
              eauto using to_any, emits_confirmLoop)
    end.
    rewrite run_bind. destruct (stdin w1) as [|line rest] eqn:Hin.
    + rewrite (run_question_nil _ _ Hin). exists []. subst w1.
      cbn [snd trace after]. by rewrite <- !app_assoc.
    + rewrite (run_question _ _ _ _ Hin).
      match goal with
      | |- context [Q line ?w0] => set (w2 := w0)
      end.
      destruct (emits_bind anyEvent (Q line) K (HQ line) HK w2) as (evs & Htr & _).
      rewrite run_bind in Htr. exists evs. rewrite Htr. subst w2 w1.
      cbn [trace after]. by rewrite <- !app_assoc.
Qed.

Lemma only_web_search_witness :
  ∃ evs, trace (Zeno.toolBranch Sample.env0 (Sample.new_file_call "a.txt")
                  (Sample.persisted ["1"])).2 =
         trace (Sample.persisted ["1"]) ++
         presentation Sample.env0 (Sample.new_file_call "a.txt") (Sample.persisted ["1"]) ++
         [Question Zeno.confirmPrompt] ++ evs.
Proof.
  apply (only_web_search_skips_confirmation Sample.env0
           (Sample.new_file_call "a.txt") (Sample.persisted ["1"])).
  discriminate.
Defined.




End ToolClaims.

(** ** Configuration and the file-mode toggle *)

Module ConfigFacts.
Import Rt Props RtFacts.

Section WithEnv.
Variable env : Env.

(** The write of [saveConfig]: it is made, and a failure is only reported. *)
Lemma writeConfig_run cfg w :
  ∃ evs,
    try_catch
      (r ← call (FsWriteConfig cfg) (λ tr, fs_writeConfig env tr cfg);
       match r with Some m => throw m | None => mret () end)
      (λ message, emit (ConsoleLog ("Error saving Zeno configuration: " +:+ message)))
      w = (Ret (), after w evs) ∧
    (∀ c, In (FsWriteConfig c) evs → c = cfg) ∧ In (FsWriteConfig cfg) evs.
Proof.
  unfold try_catch, after. run. destruct (fs_writeConfig env (trace w) cfg) as [m|]; run.
  - exists [FsWriteConfig cfg; ConsoleLog ("Error saving Zeno configuration: " +:+ m)].
    unfold emit, modify. cbn. rewrite <- app_assoc. split; [reflexivity|].
    split; [|by left]. by intros c [[= <-]|[[=]|[]]].
  - exists [FsWriteConfig cfg]. split; [reflexivity|].
    split; [|by left]. by intros c [[= <-]|[]].
Qed.

(** [saveConfig] writes at most one configuration, the one computed from the
    module variables, and does write it when the directory can be made. *)
Lemma saveConfig_run w :
  ∃ r w' evs,
    Zeno.saveConfig env w = (r, w') ∧ w' = after w evs ∧
    (∀ cfg, In (FsWriteConfig cfg) evs → cfg = Zeno.configToSave w) ∧
    (mkdirPasses env (trace w) →
       r = Ret tt ∧ In (FsWriteConfig (Zeno.configToSave w)) evs).
Proof.
  unfold Zeno.saveConfig, Zeno.ensureConfigDir, mkdirPasses. run.
  assert (Hgo : ∀ w1, w1 = after w [FsMkdirConfig] →
    ∃ w' evs,
      try_catch
        (r ← call (FsWriteConfig (Zeno.configToSave w1))
               (λ tr, fs_writeConfig env tr (Zeno.configToSave w1));
         match r with Some m => throw m | None => mret () end)
        (λ message, emit (ConsoleLog ("Error saving Zeno configuration: " +:+ message)))
        w1 = (Ret (), w') ∧ w' = after w evs ∧
      (∀ cfg, In (FsWriteConfig cfg) evs → cfg = Zeno.configToSave w) ∧
      In (FsWriteConfig (Zeno.configToSave w)) evs).
  { intros w1 ->.
    destruct (writeConfig_run (Zeno.configToSave (after w [FsMkdirConfig]))
                (after w [FsMkdirConfig])) as (evs & Hrun & Hall & Hin).
    eexists. exists (FsMkdirConfig :: evs). split; [exact Hrun|].
    split; [unfold after; cbn; by rewrite <- app_assoc|].
    split; [|by right]. intros cfg [[=]|H]. by apply Hall. }
  destruct (fs_mkdir env (trace w)) as [|code message]; run.
  - destruct (Hgo _ eq_refl) as (w' & evs & Hrun & Hw' & Hall & Hin).
    unfold after in Hrun. cbn in Hrun. rewrite Hrun.
    by exists (Ret ()), w', evs.
  - destruct (String.eqb_spec code "EEXIST") as [->|Hcode]; run.
    + destruct (Hgo _ eq_refl) as (w' & evs & Hrun & Hw' & Hall & Hin).
      unfold after in Hrun. cbn in Hrun. rewrite Hrun.
      by exists (Ret ()), w', evs.
    + eexists. eexists. exists [FsMkdirConfig].
      split; [reflexivity|]. split; [reflexivity|].
      split; [by intros cfg [[=]|[]]|done].
Qed.

(** [startNewChatSession] only talks: it saves nothing. *)
Lemma startNewChatSession_run w :
  ∃ evs, Zeno.startNewChatSession env w = (Ret tt, after w evs) ∧
         Forall (λ e, notConfigWrite e = true) evs ∧
         Forall (λ e, notQuestion e = true) evs.
Proof.
  unfold Zeno.startNewChatSession, after. run.
  destruct (Zeno.filesActive w); run; unfold emit, modify; run_cbn;
    rewrite <- !app_assoc;
    (eexists; split; [reflexivity|]; split; by repeat constructor).
Qed.

(** With file mode off, [/files] starts by asking for a directory. *)
Lemma toggle_on_asks w :
  isFilesModeEnabled w = false →
  ∃ evs, trace (Zeno.toggleFilesMode env w).2 =
         trace w ++ [ConsoleLog "Enable file manipulation mode:";
                     Question Zeno.dirPrompt] ++ evs.
Proof.
  intros Hoff. unfold Zeno.toggleFilesMode, Zeno.toggleFilesMode_body.
  do 2 (rewrite run_bind; run_cbn). rewrite Hoff. rewrite run_bind; run_cbn.
  match goal with
  | |- context [(question _ ≫= ?k) ?w0] =>
      set (Q := k); set (w1 := w0)
  end.
  match goal with
  | |- context [if _ then Zeno.startNewChatSession env else ?m] =>
      set (S := λ proceed : bool, if proceed then Zeno.startNewChatSession env else m)
  end.
  assert (HQ : ∀ a, emits anyEvent (Q a)).
  { intros; subst Q; cbn beta; emits_auto;
      unfold Zeno.saveConfig, Zeno.ensureConfigDir; emits_auto. }
  assert (HS : ∀ b, emits anyEvent (S b)).
  { intros []; subst S; cbn beta iota; [|by emits_auto].
    unfold Zeno.startNewChatSession. by emits_auto. }
  rewrite run_bind. destruct (stdin w1) as [|line rest] eqn:Hin.
  - rewrite (PromptFacts.run_question_nil _ _ Hin). exists []. subst w1.
    cbn. by rewrite <- !app_assoc.
  - rewrite (PromptFacts.run_question _ _ _ _ Hin).
    match goal with
    | |- context [Q line ?w0] => set (w2 := w0)
    end.
    destruct (emits_bind anyEvent (Q line) S (HQ line) HS w2) as (evs' & Htr' & _).
    rewrite run_bind in Htr'. exists evs'. subst S. cbn beta in Htr'.
    rewrite Htr'. subst w2 w1. cbn. by rewrite <- !app_assoc.
Qed.

End WithEnv.
End ConfigFacts.

Module ConfigClaims.
Import Rt Props RtFacts ConfigFacts.

(** C5 as stated fails: in the session with the persisted directory
    [/srv/work], [/files] turns file mode off and the configuration it saves
    still holds that directory. *)
Lemma toggle_off_saves_persisted_directory :
  trace (Zeno.toggleFilesMode Sample.env0 (Sample.persisted [])).2 =
    [ConsoleLog "File manipulation mode DISABLED.";
     FsMkdirConfig;
     FsWriteConfig (mkConfig (Js.VString "key") (Some (Js.VString "/srv/work")));
     StartChat ["web_search"] [];
     ConsoleLog "Chat session (re)started with gemini-2.5-flash-preview-05-20.";
     ConsoleLog "Web search tool is available.";
     ConsoleLog "File manipulation tools are DISABLED."] ∧
  isFilesModeEnabled (Zeno.toggleFilesMode Sample.env0 (Sample.persisted [])).2 = false ∧
  filesWorkingDirectory (Zeno.toggleFilesMode Sample.env0 (Sample.persisted [])).2 =
    Js.VString "/srv/work".
Proof. vm_compute. repeat split. Qed.

(** C5, as the code has it: with file mode on, [/files] turns it off, leaves
    both working directories as they are and saves the configuration of the
    moment: the persisted directory is in it unless a temporary directory is
    set.  The save is made whenever the configuration directory can be made,
    and no other configuration is written. *)
Theorem toggle_off_saves_current_configuration env w :
  isFilesModeEnabled w = true →
  ∃ r w' evs,
    Zeno.toggleFilesMode env w = (r, w') ∧
    isFilesModeEnabled w' = false ∧
    filesWorkingDirectory w' = filesWorkingDirectory w ∧
    tempFilesWorkingDirectory w' = tempFilesWorkingDirectory w ∧
    trace w' = trace w ++ evs ∧
    (∀ cfg, In (FsWriteConfig cfg) evs → cfg = Zeno.configToSave w) ∧
    (mkdirPasses env (trace w ++ [ConsoleLog "File manipulation mode DISABLED."]) →
       r = Ret tt ∧ In (FsWriteConfig (Zeno.configToSave w)) evs) ∧
    cfg_filesWorkingDirectory (Zeno.configToSave w) =
      (if Js.truthy (filesWorkingDirectory w) &&
          negb (Js.truthy (tempFilesWorkingDirectory w))
       then Some (filesWorkingDirectory w) else None).
Proof.
  intros Hon. unfold Zeno.toggleFilesMode, Zeno.toggleFilesMode_body.
  do 2 (rewrite run_bind; run_cbn). rewrite Hon. do 3 (rewrite run_bind; run_cbn).
  match goal with
  | |- context [Zeno.saveConfig env ?w0] =>
      destruct (saveConfig_run env w0) as (r & w1 & evs & Hrun & -> & Hall & Hmk)
  end.
  rewrite Hrun. unfold after in *. cbn [trace] in Hmk.
  change (Zeno.configToSave _) with (Zeno.configToSave w) in Hall, Hmk.
  destruct r as [[]|m|]; run.
  - match goal with
    | |- context [Zeno.startNewChatSession env ?w0] =>
        destruct (startNewChatSession_run env w0) as (evs' & Hrun' & Hev' & _)
    end.
    rewrite Hrun'. unfold after. cbn.
    exists (Ret ()). eexists.
    exists (ConsoleLog "File manipulation mode DISABLED." :: evs ++ evs').
    split; [reflexivity|]. cbn. repeat split.
    + by rewrite <- !app_assoc.
    + intros cfg [[=]|H]. apply in_app_or in H as [H|H]; [by apply Hall|].
      rewrite List.Forall_forall in Hev'. by specialize (Hev' _ H).
    + right. apply in_or_app. left. by apply Hmk.
  - eexists. eexists. exists (ConsoleLog "File manipulation mode DISABLED." :: evs).
    split; [reflexivity|]. cbn. repeat split.
    + by rewrite <- !app_assoc.
    + intros cfg [[=]|H]. by apply Hall.
    + by apply Hmk.
    + right. by apply Hmk.
  - eexists. eexists. exists (ConsoleLog "File manipulation mode DISABLED." :: evs).
    split; [reflexivity|]. cbn. repeat split.
    + by rewrite <- !app_assoc.
    + intros cfg [[=]|H]. by apply Hall.
    + by apply Hmk.
    + right. by apply Hmk.
Qed.

Lemma toggle_off_witness :
  ∃ r w' evs,
    Zeno.toggleFilesMode Sample.env0 (Sample.persisted []) = (r, w') ∧
    isFilesModeEnabled w' = false ∧
    trace w' = trace (Sample.persisted []) ++ evs ∧
    In (FsWriteConfig (mkConfig (Js.VString "key") (Some (Js.VString "/srv/work")))) evs.
Proof.
  destruct (toggle_off_saves_current_configuration Sample.env0 (Sample.persisted [])
              eq_refl) as (r & w' & evs & Hrun & Hoff & _ & _ & Htr & _ & Hmk & _).
  exists r, w', evs. repeat split; [exact Hrun|exact Hoff|exact Htr|].
  by apply Hmk.
Defined.

(** C6, at the input where the code departs from it: in the session with
    the persisted directory [/srv/work], [/files] twice (off, then on) asks
    for a directory again.  An empty answer leaves file mode off; another
    directory as answer replaces the persisted one. *)
Theorem toggle_off_then_on_asks_again :
  trace (Sample.offThenOn [""]).2 =
    [ConsoleLog "File manipulation mode DISABLED.";
     FsMkdirConfig;
     FsWriteConfig (mkConfig (Js.VString "key") (Some (Js.VString "/srv/work")));
     StartChat ["web_search"] [];
     ConsoleLog "Chat session (re)started with gemini-2.5-flash-preview-05-20.";
     ConsoleLog "Web search tool is available.";
     ConsoleLog "File manipulation tools are DISABLED.";
     ConsoleLog "Enable file manipulation mode:";
     Question Zeno.dirPrompt;
     ConsoleLog "No directory provided. File manipulation mode remains disabled."] ∧
  isFilesModeEnabled (Sample.offThenOn [""]).2 = false ∧
  stdin (Sample.offThenOn [""]).2 = [] ∧
  isFilesModeEnabled (Sample.offThenOn ["/tmp/other"]).2 = true ∧
  filesWorkingDirectory (Sample.offThenOn ["/tmp/other"]).2 = Js.VString "/tmp/other".
Proof. vm_compute. repeat split. Qed.

(** C9: while the temporary working directory is set, the configuration
    that [saveConfig] writes holds no working directory, and it writes no
    other.  Choosing the current directory ([this_folder]) sets the temporary
    directory, clears the persisted one and saves nothing. *)
Theorem temporary_directory_is_never_saved env w :
  (Js.truthy (tempFilesWorkingDirectory w) = true →
     cfg_filesWorkingDirectory (Zeno.configToSave w) = None ∧
     ∃ r w' evs,
       Zeno.saveConfig env w = (r, w') ∧ trace w' = trace w ++ evs ∧
       (∀ cfg, In (FsWriteConfig cfg) evs → cfg_filesWorkingDirectory cfg = None) ∧
       (mkdirPasses env (trace w) → In (FsWriteConfig (mkConfig (apiKey w) None)) evs)) ∧
  (∀ line rest,
     isFilesModeEnabled w = false → stdin w = line :: rest →
     Js.toLowerCase (Js.trim line) = "this_folder" →
     ∃ w' evs,
       Zeno.toggleFilesMode env w = (Ret tt, w') ∧
       isFilesModeEnabled w' = true ∧
       tempFilesWorkingDirectory w' = Js.VString (cwd env) ∧
       filesWorkingDirectory w' = Js.VNull ∧
       stdin w' = rest ∧
       trace w' = trace w ++ evs ∧
       Forall (λ e, notConfigWrite e = true) evs).
Proof.
  split.
  - intros Htemp.
    assert (Hcfg : Zeno.configToSave w = mkConfig (apiKey w) None).
    { unfold Zeno.configToSave. rewrite Htemp. by rewrite andb_false_r. }
    split; [by rewrite Hcfg|].
    destruct (saveConfig_run env w) as (r & w' & evs & Hrun & -> & Hall & Hmk).
    exists r, (after w evs), evs. split; [exact Hrun|]. split; [done|]. split.
    + intros cfg H. rewrite (Hall cfg H). by rewrite Hcfg.
    + intros H. rewrite <- Hcfg. by apply Hmk.
  - intros line rest Hoff Hin Hline.
    unfold Zeno.toggleFilesMode, Zeno.toggleFilesMode_body.
    do 2 (rewrite run_bind; run_cbn). rewrite Hoff. do 2 (rewrite run_bind; run_cbn).
    rewrite (PromptFacts.run_question _ _ line rest) by exact Hin.
    rewrite Hline, String.eqb_refl. run.
    match goal with
    | |- context [Zeno.startNewChatSession env ?w0] =>
        destruct (startNewChatSession_run env w0) as (evs' & Hrun' & Hev' & _)
    end.
    rewrite Hrun'. unfold after. cbn.
    eexists. eexists. split; [reflexivity|]. cbn.
    split; [done|]. split; [done|]. split; [done|]. split; [done|].
    split; [by rewrite <- !app_assoc|].
    repeat (apply Forall_app; split); first [exact Hev' | by repeat constructor].
Qed.

Lemma temporary_directory_witness :
  cfg_filesWorkingDirectory (Zeno.configToSave (Sample.temporary [])) = None ∧
  ∃ r w' evs,
    Zeno.saveConfig Sample.env0 (Sample.temporary []) = (r, w') ∧
    trace w' = trace (Sample.temporary []) ++ evs ∧
    (∀ cfg, In (FsWriteConfig cfg) evs → cfg_filesWorkingDirectory cfg = None) ∧
    (mkdirPasses Sample.env0 (trace (Sample.temporary [])) →
       In (FsWriteConfig (mkConfig (apiKey (Sample.temporary [])) None)) evs).
Proof.
  apply (temporary_directory_is_never_saved Sample.env0 (Sample.temporary [])).
  reflexivity.
Defined.



End ConfigClaims.

(** ** Further facts about [path.resolve] *)

Module PathMore.
Import More.

Lemma split_slash a b :
  Path.split (a +:+ String "/" b) = Path.split a ++ Path.split b.
Proof.
  induction a as [|c a IH]; [done|].
  rewrite JsFacts.app_cons, !PathFacts.split_cons, IH.
  destruct (Ascii.eqb c "/"); [done|].
  destruct (Path.split a) as [|seg rest] eqn:E; [|done].
  by destruct (PathFacts.split_not_nil a).
Qed.

Lemma split_noSlash s : Forall (λ seg, noSlash seg = true) (Path.split s).
Proof.
  induction s as [|c s IH]; [by repeat constructor|].
  rewrite PathFacts.split_cons. destruct (Ascii.eqb c "/") eqn:Ec.
  - by constructor.
  - destruct (Path.split s) as [|seg rest]; inversion IH; subst;
      constructor; try done; cbn; by rewrite Ec.
Qed.

Lemma split_single s : noSlash s = true → Path.split s = [s].
Proof.
  induction s as [|c s IH]; [done|]. cbn [noSlash]. intros H.
  apply andb_true_iff in H as [Hc Hs]. rewrite PathFacts.split_cons.
  destruct (Ascii.eqb c "/"); [done|]. by rewrite (IH Hs).
Qed.

Lemma split_join segs :
  segs ≠ [] → Forall (λ seg, noSlash seg = true) segs →
  Path.split (Path.join segs) = segs.
Proof.
  induction segs as [|x [|y segs] IH]; intros Hne Hall; [done| |].
  - inversion Hall; subst. by apply split_single.
  - inversion Hall as [|? ? Hx Hrest]; subst.
    change (Path.join (x :: y :: segs)) with (x +:+ String "/" (Path.join (y :: segs))).
    rewrite split_slash, (split_single x Hx), IH; done.
Qed.

Lemma filter_components segs :
  Forall (λ seg, component seg = true) segs →
  filter (λ seg : string, seg ≠ "") segs = segs.
Proof.
  induction 1 as [|s l Hs Hl IH]; [done|].
  rewrite filter_cons, IH. unfold component in Hs.
  apply andb_true_iff in Hs as [_ Hs].
  destruct (decide (s ≠ "")) as [|Hd]; [done|].
  destruct Hd. intros ->. discriminate Hs.
Qed.

Lemma components_noSlash segs :
  Forall (λ seg, component seg = true) segs →
  Forall (λ seg, noSlash seg = true) segs.
Proof.
  intros Hall. eapply Forall_impl; [exact Hall|]. intros s Hs.
  unfold component in Hs. by apply andb_true_iff in Hs as [? _].
Qed.

Lemma components_root segs :
  Forall (λ seg, component seg = true) segs →
  Path.components ("/" +:+ Path.join segs) = segs.
Proof.
  intros Hall. unfold Path.components.
  change ("/" +:+ Path.join segs) with ("" +:+ String "/" (Path.join segs)).
  rewrite split_slash. cbn [Path.split app].
  rewrite filter_cons. destruct (decide ("" ≠ "")) as [|_]; [done|].
  destruct segs as [|x segs]; [done|].
  rewrite split_join; [|done|by apply components_noSlash].
  by apply filter_components.
Qed.

Lemma list_prefixb_app l1 l2 : Path.list_prefixb l1 (l1 ++ l2) = true.
Proof.
  induction l1 as [|x l1 IH]; [done|]. cbn. by rewrite String.eqb_refl, IH.
Qed.

(** Without [..] among the segments, normalisation only drops the empty and the
    [.] segments. *)
Lemma normalize_plain allow segs : ∀ acc,
  ¬ In ".." segs →
  fold_left (Path.normalize_step allow) segs acc = rev (filter (λ s, kept s = true) segs) ++ acc.
Proof.
  induction segs as [|seg segs IH]; intros acc Hno; [done|].
  cbn [fold_left]. rewrite IH; [|intros H; apply Hno; by right].
  rewrite filter_cons. unfold Path.normalize_step.
  destruct (decide (kept seg = true)) as [Hk|Hk]; unfold kept in Hk;
    destruct (String.eqb seg "" || String.eqb seg "."); try done.
  destruct (String.eqb_spec seg "..") as [->|_]; [destruct Hno; by left|].
  cbn [rev]. by rewrite <- app_assoc.
Qed.

(** Under the root only proper components are kept. *)
Lemma normalize_components segs : ∀ acc,
  Forall (λ seg, noSlash seg = true) segs →
  Forall (λ seg, component seg = true) acc →
  Forall (λ seg, component seg = true)
    (fold_left (Path.normalize_step false) segs acc).
Proof.
  induction segs as [|seg segs IH]; intros acc Hsegs Hacc; [done|].
  inversion Hsegs as [|? ? Hseg Hrest]; subst. cbn [fold_left]. apply IH; [done|].
  unfold Path.normalize_step.
  destruct (String.eqb_spec seg "") as [->|Hne]; [done|]. cbn [orb].
  destruct (String.eqb seg "."); [done|].
  destruct (String.eqb seg "..").
  - destruct acc as [|last acc]; [done|].
    inversion Hacc; subst. by destruct (String.eqb last "..").
  - constructor; [|done]. unfold component. rewrite Hseg. cbn.
    by destruct (String.eqb_spec seg "").
Qed.

Lemma absolute_not_empty b : Path.isAbsolute b = true → (b =? "") = false.
Proof. by destruct b. Qed.

(** A relative path without [..] resolves below the resolved directory. *)
Lemma resolve_below cwd b p :
  Path.isAbsolute b = true → Path.isAbsolute p = false →
  p ≠ "" → Js.includes p ".." = false →
  ∃ base absolute,
    Path.resolve cwd [Js.VString b] = Some base ∧
    Path.resolve cwd [Js.VString b; Js.VString p] = Some absolute ∧
    Path.within base absolute = true.
Proof.
  intros Hb Hp Hne Hdots.
  assert (Hno : ¬ In ".." (Path.split p)).
  { intros H. rewrite (PathFacts.parent_segment_included p H) in Hdots. discriminate. }
  unfold Path.resolve. cbn [rev app Path.resolve_loop].
  rewrite !(absolute_not_empty b Hb), ?Hb.
  destruct (String.eqb_spec p "") as [|_]; [done|].
  rewrite Hp, ?(absolute_not_empty b Hb), ?Hb. cbn [negb].
  unfold Path.normalizeString, Path.normalize_segments.
  change (b +:+ "/" +:+ p +:+ "/" +:+ "") with (b +:+ String "/" (p +:+ String "/" "")).
  change (b +:+ "/" +:+ "") with (b +:+ String "/" "").
  rewrite !split_slash, !fold_left_app. cbn [Path.split].
  set (acc := fold_left (Path.normalize_step false) (Path.split b) []).
  assert (Hacc : Forall (λ seg, component seg = true) acc).
  { apply normalize_components; [apply split_noSlash|constructor]. }
  rewrite (normalize_plain false (Path.split p) acc Hno).
  cbn [fold_left Path.normalize_step String.eqb orb].
  rewrite rev_app_distr, rev_involutive.
  eexists. eexists. split; [reflexivity|]. split; [reflexivity|].
  unfold Path.within. rewrite !components_root.
  - apply list_prefixb_app.
  - apply Forall_app. split; [by apply Forall_rev|].
    pose proof (split_noSlash p) as Hs. clear Hno.
    induction Hs as [|s l Hs Hl IH]; [done|].
    rewrite filter_cons. destruct (decide (kept s = true)) as [Hk|_]; [|done].
    constructor; [|done]. unfold component. rewrite Hs. unfold kept in Hk.
    by destruct (String.eqb s "").
  - by apply Forall_rev.
Qed.

End PathMore.

(** ** What a computation leaves alone *)

Module KeepFacts.
Import Rt Props More RtFacts.

Section Keeps.
Variable R : World → World → Prop.
Hypothesis R_refl : ∀ w, R w w.
Hypothesis R_trans : ∀ w1 w2 w3, R w1 w2 → R w2 w3 → R w1 w3.

Lemma keeps_ret {A} (a : A) : keeps R (mret a).
Proof using All. intros w. apply R_refl. Qed.

Lemma keeps_throw {A} e : keeps R (throw e : M A).
Proof using All. intros w. apply R_refl. Qed.

Lemma keeps_await {A} : keeps R (await : M A).
Proof using All. intros w. apply R_refl. Qed.

Lemma keeps_get : keeps R get.
Proof using All. intros w. apply R_refl. Qed.

Lemma keeps_bind {A B} (m : M A) (k : A → M B) :
  keeps R m → (∀ a, keeps R (k a)) → keeps R (m ≫= k).
Proof using All.
  intros Hm Hk w. rewrite run_bind. pose proof (Hm w) as H.
  destruct (m w) as [[a|e|] w1]; cbn in *; [|done..].
  eapply R_trans; [exact H|apply Hk].
Qed.

Lemma keeps_try_catch {A} (m : M A) handler :
  keeps R m → (∀ e, keeps R (handler e)) → keeps R (try_catch m handler).
Proof using All.
  intros Hm Hh w. unfold try_catch. pose proof (Hm w) as H.
  destruct (m w) as [[a|e|] w1]; cbn in *; [done| |done].
  eapply R_trans; [exact H|apply Hh].
Qed.

Lemma keeps_while_true {A} (rounds : nat → M A) :
  (∀ n, keeps R (rounds n)) → keeps R (while_true rounds).
Proof using All. intros H w. apply H. Qed.

Lemma keeps_path_resolve env paths : keeps R (path_resolve env paths).
Proof using All. unfold path_resolve. destruct (Path.resolve _ _); intros w; apply R_refl. Qed.

Lemma keeps_call {A} e (answer : list Event → A) :
  keeps R (emit e) → keeps R (call e answer).
Proof using All. intros H w. apply H. Qed.

Lemma keeps_question prompt :
  keeps R (emit (Question prompt)) →
  (∀ l w, R w (set_stdin l w).2) →
  keeps R (question prompt).
Proof using All.
  intros He Hs w. unfold question. pose proof (He w) as H.
  destruct (stdin _); cbn [snd]; [done|].
  eapply R_trans; [exact H|apply Hs].
Qed.

End Keeps.

(** Breaks a goal [keeps R m] down along the structure of [m]; [atom] settles
    the single assignments. *)
Ltac keeps_step refl trans atom :=
  lazymatch goal with
  | |- keeps _ (_ ≫= _) => apply (keeps_bind _ refl trans); [|intros]
  | |- keeps _ (try_catch _ _) => apply (keeps_try_catch _ refl trans); [|intros]
  | |- keeps _ (mret _) => apply (keeps_ret _ refl trans)
  | |- keeps _ (ret _) => apply (keeps_ret _ refl trans)
  | |- keeps _ (throw _) => apply (keeps_throw _ refl trans)
  | |- keeps _ await => apply (keeps_await _ refl trans)
  | |- keeps _ get => apply (keeps_get _ refl trans)
  | |- keeps _ (path_resolve _ _) => apply (keeps_path_resolve _ refl trans)
  | |- keeps _ (while_true _) => apply (keeps_while_true _ refl trans); intros
  | |- keeps _ (call _ _) => apply (keeps_call _ refl trans); atom
  | |- keeps _ (question _) => apply (keeps_question _ refl trans); [atom|intros; atom]
  | |- keeps _ (if ?b then _ else _) => destruct b
  | |- keeps _ (match ?x with _ => _ end) => destruct x
  | |- keeps _ (let x := _ in _) => cbv zeta
  | |- keeps _ _ => atom
  end.

Lemma untouched_refl w : untouched w w.
Proof. by repeat split. Qed.

Lemma untouched_trans w1 w2 w3 : untouched w1 w2 → untouched w2 w3 → untouched w1 w3.
Proof.
  intros (F1 & S1) (F2 & S2). split; [by eapply PromptFacts.frame_trans|congruence].
Qed.

Ltac untouched_auto :=
  repeat keeps_step untouched_refl untouched_trans
    ltac:(solve [try intros ?; by repeat split]).

Lemma historyGrows_refl w : historyGrows w w.
Proof. exists []. by rewrite app_nil_r. Qed.

Lemma historyGrows_trans w1 w2 w3 :
  historyGrows w1 w2 → historyGrows w2 w3 → historyGrows w1 w3.
Proof.
  intros (a1 & E1) (a2 & E2). exists (a1 ++ a2). by rewrite E2, E1, app_assoc.
Qed.

Ltac historyGrows_auto :=
  repeat keeps_step historyGrows_refl historyGrows_trans
    ltac:(solve [try intros ?; cbn; first [by exists []; rewrite app_nil_r | by eexists [_]]]).

Lemma sameMode_refl w : sameMode w w.
Proof. by repeat split. Qed.

Lemma sameMode_trans w1 w2 w3 : sameMode w1 w2 → sameMode w2 w3 → sameMode w1 w3.
Proof. unfold sameMode. intros (?&?&?&?) (?&?&?&?). repeat split; congruence. Qed.

Ltac sameMode_auto :=
  repeat keeps_step sameMode_refl sameMode_trans
    ltac:(solve [try intros ?; by repeat split]).

Lemma sameTranscript_refl w : sameTranscript w w.
Proof. done. Qed.

Lemma sameTranscript_trans w1 w2 w3 :
  sameTranscript w1 w2 → sameTranscript w2 w3 → sameTranscript w1 w3.
Proof. unfold sameTranscript. congruence. Qed.

Ltac sameTranscript_auto :=
  repeat keeps_step sameTranscript_refl sameTranscript_trans
    ltac:(solve [try intros ?; exact eq_refl]).

End KeepFacts.

(** ** Further properties of the executors of [file.js] *)

Module ExecutorFacts.
Import Rt Props More RtFacts KeepFacts FileOps.

Lemma resolve_loop_strings paths : ∀ acc,
  Forall (λ v, Js.is_string v = true) paths →
  ∃ r, Path.resolve_loop paths acc = Some r.
Proof.
  induction paths as [|v paths IH]; intros acc Hall; [by eexists|].
  inversion Hall as [|? ? Hv Hrest]; subst.
  destruct v; try discriminate Hv. cbn [Path.resolve_loop].
  destruct (String.eqb s ""); [by apply IH|].
  destruct (Path.isAbsolute s); [by eexists|by apply IH].
Qed.

Lemma resolve_strings cwd paths :
  Forall (λ v, Js.is_string v = true) paths →
  ∃ p, Path.resolve cwd paths = Some p.
Proof.
  intros Hall. unfold Path.resolve.
  destruct (resolve_loop_strings (rev paths ++ [Js.VString cwd]) "") as ([r a] & ->).
  - apply Forall_app. split; [by apply Forall_rev|by constructor].
  - by eexists.
Qed.

Lemma createNewFile_untouched env basePath path content :
  keeps untouched (createNewFile env basePath path content).
Proof. unfold createNewFile. untouched_auto. Qed.

Lemma renameFile_untouched env basePath old new :
  keeps untouched (renameFile env basePath old new).
Proof. unfold renameFile. untouched_auto. Qed.

Lemma execPromise_untouched env command dir :
  keeps untouched (execPromise env command dir).
Proof. unfold execPromise. untouched_auto. Qed.

Lemma runShellCommand_untouched env basePath command :
  keeps untouched (runShellCommand env basePath command).
Proof. unfold runShellCommand, execPromise. untouched_auto. Qed.

(** A command that is a non-empty string is logged and handed to [exec]. *)
Lemma runShellCommand_world env basePath c w :
  c ≠ "" →
  (runShellCommand env basePath (Js.VString c) w).2 =
  after w [ConsoleLog ("Executing command in " +:+ to_string env basePath +:+
                       ": " +:+ c);
           Exec c basePath].
Proof.
  intros Hne. unfold runShellCommand.
  cbn [Js.truthy Js.is_string Js.str negb orb].
  destruct (String.eqb_spec c "") as [|_]; [done|]. cbn [negb orb].
  unfold try_catch, execPromise. run.
  destruct (exec env _ c basePath) as [m|[message|] out err]; run;
    unfold after; by rewrite <- app_assoc.
Qed.

End ExecutorFacts.

(** ** Further properties of [createNewFile] and [renameFile] *)

Module FileOpsMore.
Import Rt Props More RtFacts KeepFacts FileOps.

Lemma valid_path_string (v : Js.Value) :
  negb (Js.truthy v) || negb (Js.is_string v) || Js.includes (Js.str v) ".." = false →
  ∃ p, v = Js.VString p ∧ p ≠ "" ∧ Js.includes p ".." = false.
Proof.
  intros H. apply orb_false_iff in H as [H Hdots].
  apply orb_false_iff in H as [Ht Hs].
  destruct v; try discriminate Hs. exists s. cbn in *.
  split; [done|]. split; [|done]. intros ->. discriminate Ht.
Qed.

(** X1: a relative path that passes the validation is written, or renamed,
    inside the working directory: for an absolute directory [b] and relative
    paths, every [fs.writeFile] of [createNewFile] and both paths of every
    [fs.rename] of [renameFile] lie, component by component, under the
    resolved directory. *)
Theorem relative_path_stays_in_directory env b p q content w :
  Path.isAbsolute b = true →
  Path.isAbsolute p = false → Path.isAbsolute q = false →
  ∃ base, Path.resolve (cwd env) [Js.VString b] = Some base ∧
    (∀ path data,
       In (FsWriteFile path data)
          (trace (createNewFile env (Js.VString b) (Js.VString p) content w).2) →
       In (FsWriteFile path data) (trace w) ∨ Path.within base path = true) ∧
    (∀ old new,
       In (FsRename old new)
          (trace (renameFile env (Js.VString b) (Js.VString p) (Js.VString q) w).2) →
       In (FsRename old new) (trace w) ∨
       (Path.within base old = true ∧ Path.within base new = true)).
Proof.
  intros Hb Hp Hq.
  destruct (ExecutorFacts.resolve_strings (cwd env) [Js.VString b]) as (base & Hbase);
    [by repeat constructor|].
  exists base. split; [done|]. split.
  - intros path data. unfold createNewFile.
    destruct (negb (Js.truthy (Js.VString p)) || _ || _) eqn:G; [by left|].
    destruct (valid_path_string _ G) as (p' & [= <-] & Hne & Hdots).
    destruct (PathMore.resolve_below (cwd env) b p Hb Hp Hne Hdots)
      as (base' & absolute & Hbase' & Habs & Hin).
    rewrite Hbase in Hbase'. injection Hbase' as <-.
    cbn [Js.str]. unfold path_resolve. rewrite Habs, Hbase.
    run.
    destruct (negb (Js.startsWith absolute base)); [by left|].
    unfold try_catch. run.
    destruct (fs_writeFile _ _ _ _); run;
      (intros [H|[H|[]]]%in_app_or; [by left|right; by injection H as <- _]).
  - intros old new. unfold renameFile.
    destruct (negb (Js.truthy (Js.VString p)) || negb (Js.is_string (Js.VString p))
              || Js.includes (Js.str (Js.VString p)) "..") eqn:G1; [by left|].
    cbn [orb].
    destruct (negb (Js.truthy (Js.VString q)) || negb (Js.is_string (Js.VString q))
              || Js.includes (Js.str (Js.VString q)) "..") eqn:G2.
    { by left. }
    destruct (valid_path_string _ G1) as (p' & [= <-] & Hnep & Hdotsp).
    destruct (valid_path_string _ G2) as (q' & [= <-] & Hneq & Hdotsq).
    destruct (PathMore.resolve_below (cwd env) b p Hb Hp Hnep Hdotsp)
      as (base' & absOld & Hbase' & Hold & Hinp).
    rewrite Hbase in Hbase'. injection Hbase' as <-.
    destruct (PathMore.resolve_below (cwd env) b q Hb Hq Hneq Hdotsq)
      as (base' & absNew & Hbase' & Hnew & Hinq).
    rewrite Hbase in Hbase'. injection Hbase' as <-.
    cbn [Js.str]. unfold path_resolve. rewrite Hold, Hnew, Hbase.
    run.
    destruct (negb (Js.startsWith absOld base) || negb (Js.startsWith absNew base));
      [by left|].
    unfold try_catch. run.
    destruct (fs_rename _ _ _ _); run;
      (intros [H|[H|[]]]%in_app_or; [by left|right; by injection H as <- <-]).
Qed.

Lemma relative_path_witness :
  ∃ base, Path.resolve (cwd Sample.env0) [Js.VString "/srv/work"] = Some base ∧
    (∀ path data,
       In (FsWriteFile path data)
          (trace (createNewFile Sample.env0 (Js.VString "/srv/work")
                    (Js.VString "notes/a.txt") (Js.VString "hi")
                    (Sample.persisted [])).2) →
       In (FsWriteFile path data) (trace (Sample.persisted [])) ∨
       Path.within base path = true) ∧
    (∀ old new,
       In (FsRename old new)
          (trace (renameFile Sample.env0 (Js.VString "/srv/work")
                    (Js.VString "notes/a.txt") (Js.VString "b.txt")
                    (Sample.persisted [])).2) →
       In (FsRename old new) (trace (Sample.persisted [])) ∨
       (Path.within base old = true ∧ Path.within base new = true)).
Proof.
  apply (relative_path_stays_in_directory Sample.env0 "/srv/work" "notes/a.txt"
           "b.txt" (Js.VString "hi") (Sample.persisted [])); reflexivity.
Defined.

(** X2: with a directory given as a string [createNewFile] never throws.  It
    either returns a text without touching anything, or it calls
    [fs.writeFile] exactly once, on the resolved path and with the content
    (the empty string when the content is missing), and returns the success
    text, or the failure text with the message of the failed write. *)
Theorem createNewFile_reports env b path content w :
  ∃ text,
    createNewFile env (Js.VString b) path content w = (Ret text, w) ∨
    ∃ p absolute,
      path = Js.VString p ∧
      Path.resolve (cwd env) [Js.VString b; Js.VString p] = Some absolute ∧
      createNewFile env (Js.VString b) path content w =
        (Ret text, after w [FsWriteFile absolute (Js.or content (Js.VString ""))]) ∧
      text =
        match fs_writeFile env (trace w) absolute (Js.or content (Js.VString "")) with
        | None => "File " +:+ Js.dq +:+ p +:+ Js.dq +:+
                  " created successfully in " +:+ b +:+ "."
        | Some message => "Error creating file " +:+ Js.dq +:+ p +:+ Js.dq +:+
                          ": " +:+ message
        end.
Proof.
  unfold createNewFile.
  destruct (negb (Js.truthy path) || _ || _) eqn:G; [eexists; by left|].
  destruct (valid_path_string _ G) as (p & -> & Hne & Hdots).
  destruct (ExecutorFacts.resolve_strings (cwd env) [Js.VString b; Js.VString p])
    as (absolute & Habs); [by repeat constructor|].
  destruct (ExecutorFacts.resolve_strings (cwd env) [Js.VString b])
    as (base & Hbase); [by repeat constructor|].
  cbn [Js.str]. unfold path_resolve. rewrite Habs, Hbase. run.
  destruct (negb (Js.startsWith absolute base)); [eexists; by left|].
  unfold try_catch. run.
  destruct (fs_writeFile _ _ _ _) eqn:E; run;
    (eexists; right; exists p, absolute; rewrite E; by repeat split).
Qed.

(** X3: with a directory given as a string [renameFile] never throws.  It
    either returns a text without touching anything, or it calls [fs.rename]
    exactly once, from the resolved old path to the resolved new path, and
    returns the success text, or the failure text with the message of the
    failed rename. *)
Theorem renameFile_reports env b old new w :
  ∃ text,
    renameFile env (Js.VString b) old new w = (Ret text, w) ∨
    ∃ p q absoluteOld absoluteNew,
      old = Js.VString p ∧ new = Js.VString q ∧
      Path.resolve (cwd env) [Js.VString b; Js.VString p] = Some absoluteOld ∧
      Path.resolve (cwd env) [Js.VString b; Js.VString q] = Some absoluteNew ∧
      renameFile env (Js.VString b) old new w =
        (Ret text, after w [FsRename absoluteOld absoluteNew]) ∧
      text =
        match fs_rename env (trace w) absoluteOld absoluteNew with
        | None => "File " +:+ Js.dq +:+ p +:+ Js.dq +:+ " renamed/moved to " +:+
                  Js.dq +:+ q +:+ Js.dq +:+ " successfully in " +:+ b +:+ "."
        | Some message => "Error renaming file " +:+ Js.dq +:+ p +:+ Js.dq +:+
                          " to " +:+ Js.dq +:+ q +:+ Js.dq +:+ ": " +:+ message
        end.
Proof.
  unfold renameFile.
  destruct (negb (Js.truthy old) || negb (Js.is_string old)
            || Js.includes (Js.str old) "..") eqn:G1; [eexists; by left|].
  cbn [orb].
  destruct (negb (Js.truthy new) || negb (Js.is_string new)
            || Js.includes (Js.str new) "..") eqn:G2; [eexists; by left|].
  destruct (valid_path_string _ G1) as (p & -> & Hnep & Hdotsp).
  destruct (valid_path_string _ G2) as (q & -> & Hneq & Hdotsq).
  destruct (ExecutorFacts.resolve_strings (cwd env) [Js.VString b; Js.VString p])
    as (absoluteOld & Hold); [by repeat constructor|].
  destruct (ExecutorFacts.resolve_strings (cwd env) [Js.VString b; Js.VString q])
    as (absoluteNew & Hnew); [by repeat constructor|].
  destruct (ExecutorFacts.resolve_strings (cwd env) [Js.VString b])
    as (base & Hbase); [by repeat constructor|].
  cbn [Js.str]. unfold path_resolve. rewrite Hold, Hnew, Hbase. run.
  destruct (negb (Js.startsWith absoluteOld base)
            || negb (Js.startsWith absoluteNew base)); [eexists; by left|].
  unfold try_catch. run.
  destruct (fs_rename _ _ _ _) eqn:E; run;
    (eexists; right; exists p, q, absoluteOld, absoluteNew; rewrite E;
     by repeat split).
Qed.



(** X5: the three executors act on the outside only: whatever their
    arguments, they ask the user nothing, read no line of input, and leave
    the key, the mode, both directories and the transcript as they were. *)
Theorem executors_leave_the_session_alone env basePath a b :
  (keeps untouched (createNewFile env basePath a b) ∧
   emits notQuestion (createNewFile env basePath a b)) ∧
  (keeps untouched (renameFile env basePath a b) ∧
   emits notQuestion (renameFile env basePath a b)) ∧
  (keeps untouched (runShellCommand env basePath a) ∧
   emits notQuestion (runShellCommand env basePath a)).
Proof.
  split; [split|split; split].
  - apply ExecutorFacts.createNewFile_untouched.
  - apply FileOpsFacts.emits_createNewFile.
  - apply ExecutorFacts.renameFile_untouched.
  - apply FileOpsFacts.emits_renameFile.
  - apply ExecutorFacts.runShellCommand_untouched.
  - apply FileOpsFacts.emits_runShellCommand.
Qed.

(** X6: [runShellCommand] hands every command that is a non-empty string to
    [exec], once, in the directory it was given and after one log line,
    whatever the command and the directory are; for any other command nothing
    happens at all. *)
Theorem runShellCommand_executes_once env basePath command w :
  (invalidCommand command ∧
   runShellCommand env basePath command w =
     (Ret "Error: Invalid command for run_command.", w)) ∨
  (∃ c, command = Js.VString c ∧ c ≠ "" ∧
        (runShellCommand env basePath command w).2 =
        after w [ConsoleLog ("Executing command in " +:+ to_string env basePath +:+
                             ": " +:+ c);
                 Exec c basePath]).
Proof.
  unfold invalidCommand.
  destruct command as [| |?|?| |c|];
    try (left; split; [by left|]; unfold runShellCommand;
         cbn [Js.is_string negb]; by rewrite orb_true_r).
  destruct (String.eqb_spec c "") as [->|Hne]; [left; split; [by right|done]|].
  right. exists c. split; [done|]. split; [done|].
  by apply ExecutorFacts.runShellCommand_world.
Qed.

End FileOpsMore.

(** ** Nothing is executed without an approval *)

Module SafetyFacts.
Import Rt Props More RtFacts KeepFacts.

Lemma stays_refl w : staysUnapproved w w.
Proof. by intros H. Qed.

Lemma stays_trans w1 w2 w3 :
  staysUnapproved w1 w2 → staysUnapproved w2 w3 → staysUnapproved w1 w3.
Proof. unfold staysUnapproved. auto. Qed.

Lemma question_stays prompt : keeps staysUnapproved (question prompt).
Proof.
  intros w H. unfold question, unapproved in *. cbn.
  destruct (stdin w) as [|line rest]; cbn; [done|]. by inversion H.
Qed.

Lemma untouched_stays {A} (m : M A) : keeps untouched m → keeps staysUnapproved m.
Proof. intros Hm w H. destruct (Hm w) as [_ Hs]. unfold unapproved. by rewrite Hs. Qed.

Ltac stays_step :=
  first [ apply question_stays
        | keeps_step stays_refl stays_trans ltac:(solve [intros ? H; exact H]) ].

Ltac stays_auto := repeat stays_step.

Lemma noFileAct_weaken {A} (m : M A) : emits notExecutor m → emits noFileAct m.
Proof. apply emits_weaken. by intros []. Qed.

Lemma output_noFileAct {A} (m : M A) : emits output m → emits noFileAct m.
Proof. apply emits_weaken. by intros []. Qed.

Lemma safe_of {A} P (m : M A) : keeps staysUnapproved m → emits P m → safe P m.
Proof. intros Hk He w Hw. split; [by apply Hk|apply He]. Qed.

(** Sequencing, with what is known of the value passed on. *)
Lemma safeAt_bind {A B} P (m : M A) (k : A → M B) w :
  safeAt P m w →
  (∀ a w', m w = (Ret a, w') → unapproved w' → safeAt P (k a) w') →
  safeAt P (m ≫= k) w.
Proof.
  intros (Hu & evs & E & F) Hk. unfold safeAt. rewrite run_bind.
  destruct (m w) as [[a|e|] w1] eqn:Hm; cbn [snd] in *; [|eauto..].
  destruct (Hk a w1 eq_refl Hu) as (Hu' & evs' & E' & F').
  split; [done|]. exists (evs ++ evs'). split; [by rewrite E', E, app_assoc|].
  by apply Forall_app.
Qed.

Lemma safe_bind {A B} P (m : M A) (k : A → M B) :
  safe P m → (∀ a, safe P (k a)) → safe P (m ≫= k).
Proof. intros Hm Hk w Hw. apply safeAt_bind; [by apply Hm|]. intros. by apply Hk. Qed.

Lemma safe_try_catch {A} P (m : M A) handler :
  safe P m → (∀ e, safe P (handler e)) → safe P (try_catch m handler).
Proof.
  intros Hm Hh w Hw. destruct (Hm w Hw) as (Hu & evs & E & F).
  unfold safeAt, try_catch.
  destruct (m w) as [[a|e|] w1]; cbn [snd] in *; [eauto| |eauto].
  destruct (Hh e w1 Hu) as (Hu' & evs' & E' & F').
  split; [done|]. exists (evs ++ evs'). split; [by rewrite E', E, app_assoc|].
  by apply Forall_app.
Qed.

Section WithEnv.
Variable env : Env.

Lemma confirmLoop_stays n : keeps staysUnapproved (Zeno.confirmLoop n).
Proof. induction n as [|n IH]; cbn [Zeno.confirmLoop]; stays_auto. exact IH. Qed.

Lemma reconfirmLoop_stays n : keeps staysUnapproved (Zeno.reconfirmLoop n).
Proof. induction n as [|n IH]; cbn [Zeno.reconfirmLoop]; stays_auto. exact IH. Qed.

Lemma handleToolConfirmation_stays toolCall :
  keeps staysUnapproved (Zeno.handleToolConfirmation env toolCall).
Proof. unfold Zeno.handleToolConfirmation. stays_auto. apply confirmLoop_stays. Qed.

Lemma streamExplanation_stays chunks : ∀ text,
  keeps staysUnapproved (Zeno.streamExplanation chunks text).
Proof.
  induction chunks as [|chunk chunks IH]; intros text;
    cbn [Zeno.streamExplanation]; stays_auto; apply IH.
Qed.

Lemma streamResponse_stays chunks : ∀ call text,
  keeps staysUnapproved (Zeno.streamResponse chunks call text).
Proof.
  induction chunks as [|chunk chunks IH]; intros call text;
    cbn [Zeno.streamResponse]; stays_auto; apply IH.
Qed.

Lemma explainRound_stays toolCall userConfirmation :
  keeps staysUnapproved (Zeno.explainRound env toolCall userConfirmation).
Proof.
  unfold Zeno.explainRound. stays_auto;
    auto using streamExplanation_stays, reconfirmLoop_stays.
Qed.

Lemma executeWebSearch_stays term :
  keeps staysUnapproved (Zeno.executeWebSearch env term).
Proof. unfold Zeno.executeWebSearch. stays_auto. Qed.

Lemma dispatch_stays toolCall dir :
  keeps staysUnapproved (Zeno.dispatch env toolCall dir).
Proof.
  unfold Zeno.dispatch. stays_auto;
    auto using executeWebSearch_stays, untouched_stays,
      ExecutorFacts.createNewFile_untouched, ExecutorFacts.renameFile_untouched,
      ExecutorFacts.runShellCommand_untouched.
Qed.

(** Without a [1] to come the first prompt never says yes. *)
Lemma confirmLoop_unapproved n : ∀ w c w',
  unapproved w → Zeno.confirmLoop n w = (Ret c, w') → Zeno.confirmed c = false.
Proof.
  induction n as [|n IH]; intros w c w' Hw Hrun; [discriminate Hrun|].
  cbn [Zeno.confirmLoop] in Hrun. rewrite run_bind in Hrun.
  destruct (stdin w) as [|line rest] eqn:Hin.
  - rewrite (PromptFacts.run_question_nil _ _ Hin) in Hrun. discriminate Hrun.
  - rewrite (PromptFacts.run_question _ _ _ _ Hin) in Hrun.
    unfold unapproved in Hw. rewrite Hin in Hw. inversion Hw as [|? ? Hline Hrest]; subst.
    destruct (String.eqb_spec line "1") as [|_]; [done|].
    destruct (String.eqb line "2"); [by injection Hrun as <- _|].
    destruct (String.eqb line "3"); [by injection Hrun as <- _|].
    rewrite run_bind in Hrun. unfold emit, modify in Hrun. cbn [fst snd] in Hrun.
    eapply IH; [|exact Hrun]. exact Hrest.
Qed.

Lemma reconfirmLoop_unapproved n : ∀ w c w',
  unapproved w → Zeno.reconfirmLoop n w = (Ret c, w') → c = false.
Proof.
  induction n as [|n IH]; intros w c w' Hw Hrun; [discriminate Hrun|].
  cbn [Zeno.reconfirmLoop] in Hrun. rewrite run_bind in Hrun.
  destruct (stdin w) as [|line rest] eqn:Hin.
  - rewrite (PromptFacts.run_question_nil _ _ Hin) in Hrun. discriminate Hrun.
  - rewrite (PromptFacts.run_question _ _ _ _ Hin) in Hrun.
    unfold unapproved in Hw. rewrite Hin in Hw. inversion Hw as [|? ? Hline Hrest]; subst.
    destruct (String.eqb_spec line "1") as [|_]; [done|].
    destruct (String.eqb line "2"); [by injection Hrun as <- _|].
    rewrite run_bind in Hrun. unfold emit, modify in Hrun. cbn [fst snd] in Hrun.
    eapply IH; [|exact Hrun]. exact Hrest.
Qed.

Lemma handleToolConfirmation_unapproved toolCall w c w' :
  tc_name toolCall ≠ "web_search" → unapproved w →
  Zeno.handleToolConfirmation env toolCall w = (Ret c, w') →
  Zeno.confirmed c = false.
Proof.
  intros Hne Hw. rewrite (ToolFacts.handleToolConfirmation_run env toolCall w Hne).
  unfold while_true. by apply confirmLoop_unapproved.
Qed.

Lemma explainRound_refuses toolCall userConfirmation w :
  unapproved w →
  match (Zeno.explainRound env toolCall userConfirmation w).1 with
  | Ret c => Zeno.confirmed c = false
  | _ => True
  end.
Proof.
  intros Hw. unfold Zeno.explainRound. run.
  destruct (sendMessageStream env _) as [m|chunks ? ? ?]; run; [done|].
  match goal with
  | |- context [Zeno.streamExplanation ?c ?t ?w0] =>
      destruct (ToolFacts.streamExplanation_run c t w0) as (w4 & Hrun & Hin & _)
  end.
  rewrite Hrun. cbn [stdin] in Hin. run. unfold while_true.
  destruct (negb (firstChunk w4)); run.
  all: match goal with
       | |- context [Zeno.reconfirmLoop ?n ?w0] =>
           pose proof (reconfirmLoop_unapproved n w0) as Hre;
           destruct (Zeno.reconfirmLoop n w0) as [[b| |] w6]; [|done..];
           rewrite (Hre b w6); [done| |done]
       end.
  all: unfold unapproved; cbn [stdin]; by rewrite Hin.
Qed.

Lemma explainRound_unapproved toolCall userConfirmation w c w' :
  unapproved w →
  Zeno.explainRound env toolCall userConfirmation w = (Ret c, w') →
  Zeno.confirmed c = false.
Proof.
  intros Hw Hrun. pose proof (explainRound_refuses toolCall userConfirmation w Hw) as H.
  by rewrite Hrun in H.
Qed.

Lemma emits_executeWebSearch_noFileAct term :
  emits noFileAct (Zeno.executeWebSearch env term).
Proof. unfold Zeno.executeWebSearch. emits_auto. Qed.

Lemma toolBranch_safe toolCall : safe noFileAct (Zeno.toolBranch env toolCall).
Proof.
  destruct (String.eqb_spec (tc_name toolCall) "web_search") as [Hname|Hne].
  - apply safe_of; unfold Zeno.toolBranch, Zeno.dispatch;
      rewrite Hname, String.eqb_refl; cbn [negb].
    + stays_auto; first [apply executeWebSearch_stays|apply explainRound_stays].
    + emits_auto;
        first [apply emits_executeWebSearch_noFileAct
              |apply noFileAct_weaken, ZenoFacts.emits_explainRound].
  - intros w Hw. unfold Zeno.toolBranch.
    destruct (String.eqb_spec (tc_name toolCall) "web_search") as [|_]; [done|].
    cbn [negb]. apply safeAt_bind.
    { apply safe_of; [apply handleToolConfirmation_stays| |done].
      apply noFileAct_weaken, ZenoFacts.emits_handleToolConfirmation. }
    intros c w1 Hrun Hw1.
    pose proof (handleToolConfirmation_unapproved toolCall w c w1 Hne Hw Hrun) as Hc.
    apply safeAt_bind.
    { destruct (Zeno.explain c).
      - apply safe_of; [apply explainRound_stays| |done].
        apply noFileAct_weaken, ZenoFacts.emits_explainRound.
      - apply safe_of; [stays_auto|emits_auto|done]. }
    intros c2 w2 Hrun2 Hw2.
    assert (Hc2 : Zeno.confirmed c2 = false).
    { destruct (Zeno.explain c).
      - exact (explainRound_unapproved toolCall c w1 c2 w2 Hw1 Hrun2).
      - by injection Hrun2 as <- _. }
    rewrite Hc2. apply safe_of; [stays_auto|emits_auto|done].
Qed.

Ltac safe_step :=
  lazymatch goal with
  | |- safe _ (Zeno.toolBranch _ _) => apply toolBranch_safe
  | |- safe _ (Zeno.streamResponse _ _ _) =>
      apply safe_of;
      [apply streamResponse_stays
      |apply output_noFileAct, ZenoFacts.emits_streamResponse]
  | |- safe _ (_ ≫= _) => apply safe_bind; [|intros]
  | |- safe _ (try_catch _ _) => apply safe_try_catch; [|intros]
  | |- safe _ (if ?b then _ else _) => destruct b
  | |- safe _ (match ?x with _ => _ end) => destruct x
  | |- safe _ (let x := _ in _) => cbv zeta
  | |- safe _ _ => apply safe_of; [solve [stays_auto]|solve [emits_auto]]
  end.

Lemma round_safe : safe noFileAct (Zeno.round env).
Proof. unfold Zeno.round. repeat safe_step. Qed.

Lemma chatRounds_safe n : safe noFileAct (Zeno.chatRounds env n).
Proof.
  induction n as [|n IH]; cbn [Zeno.chatRounds]; [repeat safe_step|].
  apply safe_bind; [apply round_safe|]. intros []; [exact IH|repeat safe_step].
Qed.

End WithEnv.
End SafetyFacts.

Module ApprovalMore.
Import Rt Props More.

(** X7: nothing is done to the user's files or machine without an approval.
    As long as no line the user types is the answer [1], handling a request
    of the model, and any number of rounds of the conversation, write no
    file, rename no file and run no command, whatever the model asks for and
    whatever the mode of the session; the input left over still holds no
    [1]. *)
Theorem nothing_runs_unapproved env w :
  unapproved w →
  (∀ toolCall,
     unapproved (Zeno.toolBranch env toolCall w).2 ∧
     ∃ evs, trace (Zeno.toolBranch env toolCall w).2 = trace w ++ evs ∧
            Forall (λ e, noFileAct e = true) evs) ∧
  (∀ n,
     unapproved (Zeno.chatRounds env n w).2 ∧
     ∃ evs, trace (Zeno.chatRounds env n w).2 = trace w ++ evs ∧
            Forall (λ e, noFileAct e = true) evs).
Proof.
  intros Hw. split.
  - intros toolCall. by apply SafetyFacts.toolBranch_safe.
  - intros n. by apply SafetyFacts.chatRounds_safe.
Qed.

Lemma nothing_runs_witness :
  (∀ toolCall,
     unapproved (Zeno.toolBranch Sample.env0 toolCall (Sample.persisted ["2"; "3"])).2 ∧
     ∃ evs, trace (Zeno.toolBranch Sample.env0 toolCall (Sample.persisted ["2"; "3"])).2 =
            trace (Sample.persisted ["2"; "3"]) ++ evs ∧
            Forall (λ e, noFileAct e = true) evs) ∧
  (∀ n,
     unapproved (Zeno.chatRounds Sample.env0 n (Sample.persisted ["2"; "3"])).2 ∧
     ∃ evs, trace (Zeno.chatRounds Sample.env0 n (Sample.persisted ["2"; "3"])).2 =
            trace (Sample.persisted ["2"; "3"]) ++ evs ∧
            Forall (λ e, noFileAct e = true) evs).
Proof.
  apply (nothing_runs_unapproved Sample.env0 (Sample.persisted ["2"; "3"])).
  unfold unapproved. cbn. repeat constructor; discriminate.
Defined.

End ApprovalMore.

(** ** An approved request *)

Module ApprovedFacts.
Import Rt Props More RtFacts KeepFacts.

Section WithEnv.
Variable env : Env.

Lemma executeWebSearch_untouched term :
  keeps untouched (Zeno.executeWebSearch env term).
Proof. unfold Zeno.executeWebSearch. untouched_auto. Qed.

Lemma dispatch_untouched toolCall dir :
  keeps untouched (Zeno.dispatch env toolCall dir).
Proof.
  unfold Zeno.dispatch. untouched_auto;
    auto using executeWebSearch_untouched, ExecutorFacts.createNewFile_untouched,
      ExecutorFacts.renameFile_untouched, ExecutorFacts.runShellCommand_untouched.
Qed.

(** After the approval at the first prompt the request is put on the
    transcript, executed, and its outcome is put on the transcript. *)
Lemma toolBranch_approved toolCall w bad rest :
  tc_name toolCall ≠ "web_search" →
  stdin w = bad ++ "1" :: rest → Forall (λ x, validInitial x = false) bad →
  Zeno.toolBranch env toolCall w =
  (result ← Zeno.dispatch env toolCall (activeDir w);
   push (responseTurn toolCall result);;
   mret true) (atExecution env toolCall w bad rest).
Proof.
  intros Hne Hw Hbad. unfold Zeno.toolBranch.
  destruct (String.eqb_spec (tc_name toolCall) "web_search") as [|_]; [done|].
  cbn [negb]. rewrite run_bind, (ToolFacts.handleToolConfirmation_run env toolCall w Hne).
  unfold while_true.
  match goal with
  | |- context [Zeno.confirmLoop ?n ?w0] =>
      destruct (PromptFacts.confirmLoop_resolves bad "1" rest n w0 Hbad eq_refl)
        as (w1 & Hrun & Htr & Hin & (Hk & He & Hf & Ht & Hh & Hc))
  end.
  { exact Hw. }
  { cbn [after stdin]. rewrite Hw, length_app. lia. }
  rewrite Hrun. change (initialDecision "1") with (Zeno.mkConfirmation true false).
  destruct w1 as [k e f t h c tr input].
  cbn [after trace apiKey isFilesModeEnabled filesWorkingDirectory
       tempFilesWorkingDirectory chatHistory firstChunk stdin] in *.
  subst. run. unfold atExecution, activeDir. by rewrite <- !app_assoc.
Qed.

End WithEnv.
End ApprovedFacts.

Module ApprovedMore.
Import Rt Props More RtFacts KeepFacts.





(** X10: an approved [run_command] hands the command to [exec] in the
    temporary directory when one is set and else in the persisted one,
    whether or not file mode is enabled and whether or not any directory is
    set at all. *)
Theorem approved_command_runs_in_active_directory env toolCall w bad rest c :
  tc_name toolCall = "run_command" →
  arg toolCall "command_to_run" = Js.VString c → c ≠ "" →
  stdin w = bad ++ "1" :: rest → Forall (λ x, validInitial x = false) bad →
  trace (Zeno.toolBranch env toolCall w).2 =
  trace (atExecution env toolCall w bad rest) ++
  [ConsoleLog ("Executing command in " +:+ to_string env (activeDir w) +:+ ": " +:+ c);
   Exec c (activeDir w)].
Proof.
  intros Hname Harg Hc Hw Hbad.
  assert (Hne : tc_name toolCall ≠ "web_search") by (rewrite Hname; discriminate).
  rewrite (ApprovedFacts.toolBranch_approved env toolCall w bad rest Hne Hw Hbad).
  unfold Zeno.dispatch. rewrite Hname, Harg. cbn [String.eqb Ascii.eqb Bool.eqb].
  rewrite run_bind.
  pose proof (ExecutorFacts.runShellCommand_world env (activeDir w) c
                (atExecution env toolCall w bad rest) Hc) as Hrun.
  destruct (FileOps.runShellCommand env (activeDir w) (Js.VString c) _)
    as [[result|message|] w2]; cbn [snd] in *; subst w2; by run.
Qed.

Lemma approved_command_witness :
  trace (Zeno.toolBranch Sample.env0
           (mkToolCall "run_command" (<["command_to_run" := Js.VString "ls"]> ∅))
           (Zeno.initialWorld ["1"])).2 =
  trace (atExecution Sample.env0
           (mkToolCall "run_command" (<["command_to_run" := Js.VString "ls"]> ∅))
           (Zeno.initialWorld ["1"]) [] []) ++
  [ConsoleLog ("Executing command in " +:+
               to_string Sample.env0 (activeDir (Zeno.initialWorld ["1"])) +:+
               ": " +:+ "ls");
   Exec "ls" (activeDir (Zeno.initialWorld ["1"]))].
Proof.
  apply (approved_command_runs_in_active_directory Sample.env0
           (mkToolCall "run_command" (<["command_to_run" := Js.VString "ls"]> ∅))
           (Zeno.initialWorld ["1"]) [] [] "ls").
  - reflexivity.
  - reflexivity.
  - discriminate.
  - reflexivity.
  - constructor.
Defined.

End ApprovedMore.

(** ** One round of the conversation *)

Module RoundFacts.
Import Rt Props More RtFacts KeepFacts.

Section WithEnv.
Variable env : Env.

Lemma streamResponse_run chunks : ∀ call text w,
  ∃ w', Zeno.streamResponse chunks call text w =
          (Ret (streamCall chunks call, text +:+ streamText chunks), w') ∧
        onlyEmits output w w'.
Proof.
  induction chunks as [|chunk chunks IH]; intros call text w;
    cbn [Zeno.streamResponse streamText streamCall].
  - exists w. rewrite JsFacts.app_nil_r. split; [done|].
    repeat split. exists []. by rewrite app_nil_r.
  - run. destruct (firstChunk w); run.
    all: destruct (String.eqb_spec (chunk_text chunk) "") as [E|E]; cbn [negb]; run.
    all: first [rewrite E, JsFacts.app_nil_l | rewrite JsFacts.app_assoc].
    all: match goal with
         | |- context [Zeno.streamResponse _ ?c ?t ?w0] =>
             destruct (IH c t w0) as (w' & Hrun & Hin & Hh & Hm & evs & Htr & Hev)
         end.
    all: exists w'; split; [exact Hrun|]; split; [exact Hin|]; split; [exact Hh|];
         split; [exact Hm|]; cbn [trace] in Htr; rewrite <- ?app_assoc in Htr;
         eexists; split; [exact Htr|]; repeat constructor; exact Hev.
Qed.

Lemma round_neverThrows : neverThrows (Zeno.round env).
Proof.
  intros w message. unfold Zeno.round. run.
  match goal with
  | |- context [try_catch ?body ?handler ?w0] =>
      set (B := body); set (h := handler); set (w1 := w0)
  end.
  unfold try_catch. destruct (B w1) as [[b|e|] w2]; [done| |done].
  subst h. run. destruct (negb (firstChunk w2)); run;
    destruct (Js.includes e "SAFETY"); run; done.
Qed.

Lemma chatRounds_neverThrows n : neverThrows (Zeno.chatRounds env n).
Proof.
  induction n as [|n IH]; intros w message; cbn [Zeno.chatRounds]; [done|].
  rewrite run_bind. pose proof (round_neverThrows w) as H.
  destruct (Zeno.round env w) as [[[|]|e|] w1]; cbn [fst] in *;
    [apply IH|done|by destruct (H e)|done].
Qed.

End WithEnv.
End RoundFacts.

Module RoundMore.
Import Rt Props More RtFacts KeepFacts.








End RoundMore.

(** ** What the conversation leaves alone *)

Module ConversationFacts.
Import Rt Props More RtFacts KeepFacts.

Lemma untouched_historyGrows w w' : untouched w w' → historyGrows w w'.
Proof.
  intros ((_ & _ & _ & _ & Hh & _) & _). exists []. by rewrite Hh, app_nil_r.
Qed.

Lemma untouched_sameMode w w' : untouched w w' → sameMode w w'.
Proof. intros ((Hk & He & Hf & Ht & _) & _). by repeat split. Qed.

Section Conversation.
Variable env : Env.
Variable R : World → World → Prop.
Hypothesis R_refl : ∀ w, R w w.
Hypothesis R_trans : ∀ w1 w2 w3, R w1 w2 → R w2 w3 → R w1 w3.
Hypothesis R_emit : ∀ e, keeps R (emit e).
Hypothesis R_stdin : ∀ l, keeps R (set_stdin l).
Hypothesis R_push : ∀ t, keeps R (push t).
Hypothesis R_firstChunk : ∀ b, keeps R (set_firstChunk b).
Hypothesis R_untouched : ∀ w w', untouched w w' → R w w'.

Ltac conv_auto :=
  repeat keeps_step R_refl R_trans
    ltac:(first [apply R_emit | apply R_stdin | apply R_push | apply R_firstChunk]).

Lemma conv_untouched {A} (m : M A) : keeps untouched m → keeps R m.
Proof using All. intros H w. apply R_untouched, H. Qed.

Lemma conv_confirmLoop n : keeps R (Zeno.confirmLoop n).
Proof using All. induction n as [|n IH]; cbn [Zeno.confirmLoop]; conv_auto. exact IH. Qed.

Lemma conv_reconfirmLoop n : keeps R (Zeno.reconfirmLoop n).
Proof using All. induction n as [|n IH]; cbn [Zeno.reconfirmLoop]; conv_auto. exact IH. Qed.

Lemma conv_handleToolConfirmation toolCall :
  keeps R (Zeno.handleToolConfirmation env toolCall).
Proof using All. unfold Zeno.handleToolConfirmation. conv_auto. apply conv_confirmLoop. Qed.

Lemma conv_streamExplanation chunks : ∀ text,
  keeps R (Zeno.streamExplanation chunks text).
Proof using All.
  induction chunks as [|chunk chunks IH]; intros text;
    cbn [Zeno.streamExplanation]; conv_auto; apply IH.
Qed.

Lemma conv_streamResponse chunks : ∀ call text,
  keeps R (Zeno.streamResponse chunks call text).
Proof using All.
  induction chunks as [|chunk chunks IH]; intros call text;
    cbn [Zeno.streamResponse]; conv_auto; apply IH.
Qed.

Lemma conv_explainRound toolCall userConfirmation :
  keeps R (Zeno.explainRound env toolCall userConfirmation).
Proof using All.
  unfold Zeno.explainRound. conv_auto;
    auto using conv_streamExplanation, conv_reconfirmLoop.
Qed.

Lemma conv_dispatch toolCall dir : keeps R (Zeno.dispatch env toolCall dir).
Proof using All. apply conv_untouched, ApprovedFacts.dispatch_untouched. Qed.

Lemma conv_toolBranch toolCall : keeps R (Zeno.toolBranch env toolCall).
Proof using All.
  unfold Zeno.toolBranch. conv_auto;
    auto using conv_handleToolConfirmation, conv_explainRound, conv_dispatch.
Qed.

Lemma conv_round : keeps R (Zeno.round env).
Proof using All.
  unfold Zeno.round. conv_auto; auto using conv_streamResponse, conv_toolBranch.
Qed.

Lemma conv_chatRounds n : keeps R (Zeno.chatRounds env n).
Proof using All.
  induction n as [|n IH]; cbn [Zeno.chatRounds]; conv_auto;
    auto using conv_round.
Qed.

End Conversation.

Lemma chatRounds_historyGrows env n : keeps historyGrows (Zeno.chatRounds env n).
Proof.
  apply (conv_chatRounds env _ historyGrows_refl historyGrows_trans);
    [..|exact untouched_historyGrows];
    intros ? ?; cbn; first [by exists []; rewrite app_nil_r | by eexists [_]].
Qed.

Lemma chatRounds_sameMode env n : keeps sameMode (Zeno.chatRounds env n).
Proof.
  apply (conv_chatRounds env _ sameMode_refl sameMode_trans);
    [..|exact untouched_sameMode]; intros ? ?; by repeat split.
Qed.

End ConversationFacts.

Module ConversationMore.
Import Rt Props More.

(** X15: the conversation only ever extends the transcript, and it never
    changes the key, the file mode or the two directories: after any number
    of rounds the old transcript is a prefix of the new one and the mode of
    the session is as before. *)
Theorem conversation_extends_the_transcript env n w :
  (∃ added, chatHistory (Zeno.chatRounds env n w).2 = chatHistory w ++ added) ∧
  sameMode w (Zeno.chatRounds env n w).2.
Proof.
  split.
  - apply (ConversationFacts.chatRounds_historyGrows env n w).
  - apply (ConversationFacts.chatRounds_sameMode env n w).
Qed.

End ConversationMore.

(** ** The toggle of file mode *)

Module ToggleFacts.
Import Rt Props More RtFacts KeepFacts.

Section WithEnv.
Variable env : Env.

Lemma saveConfig_sameMode : keeps sameMode (Zeno.saveConfig env).
Proof. unfold Zeno.saveConfig, Zeno.ensureConfigDir. sameMode_auto. Qed.

Lemma startNewChatSession_sameMode : keeps sameMode (Zeno.startNewChatSession env).
Proof. unfold Zeno.startNewChatSession. sameMode_auto. Qed.

Lemma toggleFilesMode_sameTranscript : keeps sameTranscript (Zeno.toggleFilesMode env).
Proof.
  unfold Zeno.toggleFilesMode, Zeno.toggleFilesMode_body, Zeno.saveConfig,
    Zeno.ensureConfigDir, Zeno.startNewChatSession.
  sameTranscript_auto.
Qed.

Lemma loadConfig_sameTranscript : keeps sameTranscript (Zeno.loadConfig env).
Proof. unfold Zeno.loadConfig, Zeno.ensureConfigDir. sameTranscript_auto. Qed.

Lemma toggled_sameMode w w1 w2 : toggled env w w1 → sameMode w1 w2 → toggled env w w2.
Proof.
  unfold toggled. intros (Hk & H) (Hk' & He' & Hf' & Ht').
  split; [congruence|]. destruct (isFilesModeEnabled w).
  - destruct H as (He & Hf & Ht). repeat split; congruence.
  - destruct H as [(?&?&?&?)|[(line & rest & Hin & Hl & He & Ht & Hf)
                              |(line & rest & r & Hin & Hr & He & Ht & Hf)]].
    + left. repeat split; congruence.
    + right. left. exists line, rest. repeat split; congruence.
    + right. right. exists line, rest, r. repeat split; congruence.
Qed.

Lemma resolve_not_empty cwd paths r : Path.resolve cwd paths = Some r → r ≠ "".
Proof.
  unfold Path.resolve. destruct (Path.resolve_loop _ _) as [[p [|]]|]; [| |done].
  - by intros [= <-].
  - destruct (String.eqb_spec (Path.normalizeString p (negb false)) "") as [E|E];
      intros [= <-]; [done|exact E].
Qed.

Lemma toggleFilesMode_body_toggled w :
  toggled env w (Zeno.toggleFilesMode_body env w).2.
Proof.
  unfold Zeno.toggleFilesMode_body, toggled. run.
  destruct (isFilesModeEnabled w) eqn:Hmode; run.
  - match goal with
    | |- context [Zeno.saveConfig env ?w1] =>
        pose proof (saveConfig_sameMode w1) as (Hk & He & Hf & Ht);
        destruct (Zeno.saveConfig env w1) as [[[]|e|] w2]
    end; cbn in *; by repeat split.
  - destruct (stdin w) as [|line rest] eqn:Hin.
    + rewrite PromptFacts.run_question_nil by done.
      split; [done|]. left. by repeat split.
    + rewrite (PromptFacts.run_question _ _ line rest) by done.
      destruct (String.eqb_spec (Js.toLowerCase (Js.trim line)) "this_folder")
        as [Hthis|_].
      { run. split; [done|]. right. left. by exists line, rest. }
      destruct (String.eqb_spec (Js.trim line) "") as [|Hne]; cbn [negb].
      { run. split; [done|]. left. by repeat split. }
      unfold try_catch. run.
      destruct (fs_stat env _ _) as [m|[|]]; run;
        [split; [done|]; left; by repeat split| |split; [done|]; left; by repeat split].
      destruct (ExecutorFacts.resolve_strings (cwd env) [Js.VString (Js.trim line)])
        as (r & Hr); [by repeat constructor|].
      unfold path_resolve. rewrite Hr. run.
      match goal with
      | |- context [Zeno.saveConfig env ?w1] =>
          pose proof (saveConfig_sameMode w1) as (Hk & He & Hf & Ht);
          destruct (Zeno.saveConfig env w1) as [[[]|e|] w2]
      end; cbn in *; run; (split; [done|]; right; right; by exists line, rest, r).
Qed.

Lemma toggleFilesMode_toggled w : toggled env w (Zeno.toggleFilesMode env w).2.
Proof.
  unfold Zeno.toggleFilesMode. rewrite run_bind.
  pose proof (toggleFilesMode_body_toggled w) as H.
  destruct (Zeno.toggleFilesMode_body env w) as [[[|]|e|] w1]; cbn [snd] in *;
    [|done..].
  eapply toggled_sameMode; [exact H|apply startNewChatSession_sameMode].
Qed.

Lemma modeInvariant_sameMode w w' : sameMode w w' → modeInvariant w → modeInvariant w'.
Proof.
  unfold modeInvariant, Zeno.filesActive. intros (_ & He & Hf & Ht).
  by rewrite He, Hf, Ht.
Qed.

Lemma loadConfig_modeInvariant lines :
  modeInvariant (Zeno.loadConfig env (Zeno.initialWorld lines)).2.
Proof.
  unfold Zeno.loadConfig, Zeno.ensureConfigDir, Zeno.initialWorld, try_catch,
    modeInvariant, Zeno.filesActive.
  run. destruct (fs_mkdir env _) as [|code message]; run.
  2: destruct (negb (String.eqb code "EEXIST")); run; [done|].
  all: destruct (fs_readConfig env _) as [m| |k d]; run; try done.
  all: destruct (Js.truthy (Js.or d Js.VNull)) eqn:E; run; by rewrite ?E.
Qed.

Lemma toggleFilesMode_modeInvariant w :
  cwd env ≠ "" → modeInvariant w → modeInvariant (Zeno.toggleFilesMode env w).2.
Proof.
  intros Hcwd Hw. destruct (toggleFilesMode_toggled w) as (_ & H).
  destruct (isFilesModeEnabled w) eqn:Hmode.
  - destruct H as (He & _). intros E. congruence.
  - destruct H as [Hsame|[(line & rest & _ & _ & He & Ht & Hf)
                          |(line & rest & r & _ & Hr & He & Ht & Hf)]].
    + by eapply modeInvariant_sameMode.
    + intros _. unfold Zeno.filesActive. rewrite He, Ht, Hf. cbn.
      by destruct (String.eqb_spec (cwd env) "").
    + intros _. unfold Zeno.filesActive. rewrite He, Ht, Hf. cbn.
      pose proof (resolve_not_empty _ _ _ Hr).
      by destruct (String.eqb_spec r "").
Qed.

End WithEnv.
End ToggleFacts.

Module ToggleMore.
Import Rt Props More RtFacts.


(** X17: whenever file mode is on, a working directory is set.  This holds
    when the configuration has been loaded at the start of the program, and
    [/files] and the conversation keep it, provided the current directory of
    the process has a name. *)
Theorem file_mode_has_a_directory env :
  cwd env ≠ "" →
  (∀ lines, modeInvariant (Zeno.loadConfig env (Zeno.initialWorld lines)).2) ∧
  (∀ w, modeInvariant w →
        modeInvariant (Zeno.toggleFilesMode env w).2 ∧
        ∀ n, modeInvariant (Zeno.chatRounds env n w).2).
Proof.
  intros Hcwd. split; [apply ToggleFacts.loadConfig_modeInvariant|].
  intros w Hw. split; [by apply ToggleFacts.toggleFilesMode_modeInvariant|].
  intros n. eapply ToggleFacts.modeInvariant_sameMode; [|exact Hw].
  apply (ConversationFacts.chatRounds_sameMode env n w).
Qed.

Lemma file_mode_witness :
  (∀ lines,
     modeInvariant (Zeno.loadConfig Sample.env0 (Zeno.initialWorld lines)).2) ∧
  (∀ w, modeInvariant w →
        modeInvariant (Zeno.toggleFilesMode Sample.env0 w).2 ∧
        ∀ n, modeInvariant (Zeno.chatRounds Sample.env0 n w).2).
Proof. apply (file_mode_has_a_directory Sample.env0). discriminate. Defined.







End ToggleMore.

(** ** Configuration, key and web search *)

Module ConfigMore.
Import Rt Props More RtFacts.

(** X20: a configuration that cannot be read, or that does not parse to an
    object, is ignored: [loadConfig] returns the empty object and the key,
    the mode and the directories stay as they were. *)
Theorem unreadable_configuration_is_ignored env w :
  mkdirPasses env (trace w) →
  (∀ k d, fs_readConfig env (trace w ++ [FsMkdirConfig]) ≠ ReadObject k d) →
  Zeno.loadConfig env w = (Ret None, after w [FsMkdirConfig; FsReadConfig]).
Proof.
  intros Hmkdir Hread.
  unfold Zeno.loadConfig, Zeno.ensureConfigDir, mkdirPasses, try_catch, after in *.
  run. destruct (fs_mkdir env (trace w)) as [|code message]; run.
  2: rewrite Hmkdir, String.eqb_refl; run.
  all: destruct (fs_readConfig env _) as [m| |k d]; run;
    [| |by destruct (Hread k d)]; by rewrite <- app_assoc.
Qed.

Lemma unreadable_configuration_witness :
  Zeno.loadConfig Cases.offline (Zeno.initialWorld []) =
  (Ret None, after (Zeno.initialWorld []) [FsMkdirConfig; FsReadConfig]).
Proof.
  apply (unreadable_configuration_is_ignored Cases.offline (Zeno.initialWorld [])).
  - reflexivity.
  - discriminate.
Defined.

(** X21: what one session saves, the next one loads.  When the configuration
    read at the start is the one a session with a key saved, the new session
    has that key and no temporary directory; it has the persisted directory
    of the old session and file mode on when the old session had a persisted
    directory and no temporary one, and otherwise no directory and file mode
    off. *)
Theorem saved_configuration_is_restored env old k lines :
  apiKey old = Js.VString k →
  mkdirPasses env [] →
  fs_readConfig env [FsMkdirConfig] = parsed (Zeno.configToSave old) →
  let w' := (Zeno.loadConfig env (Zeno.initialWorld lines)).2 in
  apiKey w' = Js.VString k ∧ tempFilesWorkingDirectory w' = Js.VNull ∧
  if Js.truthy (filesWorkingDirectory old) &&
     negb (Js.truthy (tempFilesWorkingDirectory old))
  then filesWorkingDirectory w' = filesWorkingDirectory old ∧
       isFilesModeEnabled w' = true
  else filesWorkingDirectory w' = Js.VNull ∧ isFilesModeEnabled w' = false.
Proof.
  intros Hkey Hmkdir Hread. cbv zeta.
  unfold Zeno.loadConfig, Zeno.ensureConfigDir, mkdirPasses, try_catch,
    Zeno.initialWorld, Zeno.configToSave, parsed in *.
  run. cbn [app] in *. destruct (fs_mkdir env []) as [|code message]; run.
  2: rewrite Hmkdir, String.eqb_refl; run.
  all: rewrite Hread, Hkey; cbn [cfg_apiKey cfg_filesWorkingDirectory]; run.
  all: unfold Js.or;
    destruct (Js.truthy (filesWorkingDirectory old)) eqn:Hf; cbn [andb];
    [destruct (negb (Js.truthy (tempFilesWorkingDirectory old)))|];
    cbn [Js.truthy]; rewrite ?Hf; run; by repeat split.
Qed.

Lemma saved_configuration_witness :
  let w' := (Zeno.loadConfig Sample.env0 (Zeno.initialWorld [])).2 in
  apiKey w' = Js.VString "key" ∧ tempFilesWorkingDirectory w' = Js.VNull ∧
  if Js.truthy (filesWorkingDirectory (Sample.persisted [])) &&
     negb (Js.truthy (tempFilesWorkingDirectory (Sample.persisted [])))
  then filesWorkingDirectory w' = filesWorkingDirectory (Sample.persisted []) ∧
       isFilesModeEnabled w' = true
  else filesWorkingDirectory w' = Js.VNull ∧ isFilesModeEnabled w' = false.
Proof.
  apply (saved_configuration_is_restored Sample.env0 (Sample.persisted []) "key" []);
    reflexivity.
Defined.

(** X22: [executeWebSearch] never throws and touches nothing of the session.
    It announces the search, sends exactly one request, to the address built
    from the encoded term, and returns the body of a response whose status is
    from 200 to 299, and an error text for any other status and for a failed
    request. *)
Theorem executeWebSearch_reports env term w :
  ∃ w' logs,
    Zeno.executeWebSearch env term w =
      (Ret match https_get env
                   (trace w ++
                    [StdoutWrite ("Zeno is performing web search for: " +:+ Js.dq +:+
                                  to_string env term +:+ Js.dq +:+ "..." +:+ Js.nl)])
                   (searchUrl env term) with
           | HttpResponse status data =>
               if (200 <=? status)%Z && (status <? 300)%Z then data
               else "Error: Failed to fetch search results. Status: " +:+
                    show_int env status
           | HttpError message =>
               "Error: Could not connect to the web search service. " +:+ message
           end, w') ∧
    untouched w w' ∧
    trace w' = trace w ++
      [StdoutWrite ("Zeno is performing web search for: " +:+ Js.dq +:+
                    to_string env term +:+ Js.dq +:+ "..." +:+ Js.nl);
       HttpsGet (searchUrl env term)] ++ logs ∧
    Forall (λ e, output e = true) logs.
Proof.
  unfold Zeno.executeWebSearch, searchUrl. run.
  destruct (https_get env _ _) as [status data|message].
  - destruct ((200 <=? status)%Z && (status <? 300)%Z); run.
    + eexists. exists []. split; [reflexivity|]. cbn [trace].
      rewrite <- !app_assoc. by repeat split.
    + unfold emit, modify. run_cbn. eexists. eexists [_].
      split; [reflexivity|]. cbn [trace]. rewrite <- !app_assoc.
      split; [by repeat split|]. split; [reflexivity|]. by repeat constructor.
  - unfold emit, modify. run_cbn. eexists. eexists [_].
    split; [reflexivity|]. cbn [trace]. rewrite <- !app_assoc.
    split; [by repeat split|]. split; [reflexivity|]. by repeat constructor.
Qed.

(** X23: asked for the key, an empty answer ends the program with nothing
    set and nothing written.  Any other answer becomes the key of the
    session, with which the client is then initialised; it is written to the
    configuration exactly when the answer to the second question begins with
    [y] or [Y], and otherwise no configuration is written. *)
Theorem api_key_prompt env w key choice rest :
  stdin w = key :: choice :: rest → (∀ tr, mkdirPasses env tr) →
  if String.eqb key "" then
    ∃ w', Startup.promptForApiKey env w = (Ret None, w') ∧ frame w w' ∧
          ∃ evs, trace w' = trace w ++ evs ∧
                 Forall (λ e, notConfigWrite e = true) evs
  else
    ∃ w' evs,
      Startup.promptForApiKey env w = (Ret (Some key), w') ∧
      apiKey w' = Js.VString key ∧ stdin w' = rest ∧
      (Startup.initializeGeminiClient env w').1 = Ret true ∧
      trace w' = trace w ++ evs ∧
      if Js.startsWith (Js.toLowerCase choice) "y"
      then In (FsWriteConfig (Zeno.configToSave (withApiKey w (Js.VString key)))) evs
      else Forall (λ e, notConfigWrite e = true) evs.
Proof.
  intros Hin Hmkdir. unfold Startup.promptForApiKey. run.
  rewrite (PromptFacts.run_question _ _ key (choice :: rest)) by done.
  destruct (String.eqb_spec key "") as [->|Hne]; run.
  { eexists. split; [reflexivity|]. split; [by repeat split|].
    cbn [trace]. rewrite <- !app_assoc. eexists. split; [reflexivity|].
    by repeat constructor. }
  rewrite (PromptFacts.run_question _ _ choice rest) by done.
  assert (Hinit : ∀ w', apiKey w' = Js.VString key →
            (Startup.initializeGeminiClient env w').1 = Ret true).
  { intros w' Hk. unfold Startup.initializeGeminiClient. run. rewrite Hk.
    cbn [Js.truthy]. destruct (String.eqb_spec key "") as [|_]; [done|].
    cbn [negb]. run.
    destruct (ConfigFacts.startNewChatSession_run env w') as (evs & -> & _).
    by run. }
  destruct (Js.startsWith (Js.toLowerCase choice) "y"); run.
  - match goal with
    | |- context [Zeno.saveConfig env ?w1] =>
        destruct (ConfigFacts.saveConfig_run env w1)
          as (res & w2 & evs & Hrun & -> & _ & Hpass);
        destruct (Hpass (Hmkdir _)) as (-> & Hsaved)
    end.
    rewrite Hrun. run. unfold emit, modify, after. run_cbn.
    eexists. eexists. split; [reflexivity|]. cbn [apiKey stdin trace].
    split; [done|]. split; [done|]. split; [by apply Hinit|].
    rewrite <- !app_assoc. split; [reflexivity|].
    rewrite !in_app_iff. repeat (first [left; exact Hsaved|right]).
  - eexists. eexists. split; [reflexivity|]. cbn [apiKey stdin trace].
    split; [done|]. split; [done|]. split; [by apply Hinit|].
    rewrite <- !app_assoc. split; [reflexivity|]. by repeat constructor.
Qed.

Lemma api_key_prompt_witness :
  if String.eqb "abc" "" then
    ∃ w', Startup.promptForApiKey Sample.env0 (Zeno.initialWorld ["abc"; "Yes"]) =
            (Ret None, w') ∧
          frame (Zeno.initialWorld ["abc"; "Yes"]) w' ∧
          ∃ evs, trace w' = trace (Zeno.initialWorld ["abc"; "Yes"]) ++ evs ∧
                 Forall (λ e, notConfigWrite e = true) evs
  else
    ∃ w' evs,
      Startup.promptForApiKey Sample.env0 (Zeno.initialWorld ["abc"; "Yes"]) =
        (Ret (Some "abc"), w') ∧
      apiKey w' = Js.VString "abc" ∧ stdin w' = [] ∧
      (Startup.initializeGeminiClient Sample.env0 w').1 = Ret true ∧
      trace w' = trace (Zeno.initialWorld ["abc"; "Yes"]) ++ evs ∧
      if Js.startsWith (Js.toLowerCase "Yes") "y"
      then In (FsWriteConfig
                 (Zeno.configToSave
                    (withApiKey (Zeno.initialWorld ["abc"; "Yes"]) (Js.VString "abc"))))
              evs
      else Forall (λ e, notConfigWrite e = true) evs.
Proof.
  apply (api_key_prompt Sample.env0 (Zeno.initialWorld ["abc"; "Yes"])
           "abc" "Yes" []).
  - reflexivity.
  - intros tr. exact I.
Defined.



End ConfigMore.
